(** * larascript-mail: a shallow embedding of the mail service

    The development follows the TypeScript sources
    - [src/mail/services/MailService.ts]   (registry, [boot], [send], locale merge)
    - [src/mail/services/MailConfig.ts]    ([define], [drivers])
    - [src/mail/base/BaseMailAdapter.ts]   ([generateBodyString])
    - [src/mail/adapters/LocalMailDriver.ts]
    - [src/mail/interfaces/adapter.ts]     (the [MailAdapter] contract)

    JavaScript objects live in explicit stores addressed by references, so
    that in-place mutation and sharing are visible; calls to the injected
    logger and view renderer are recorded in a trace; an [async] method is
    a state transformer that ends in a settled promise. *)

From Stdlib Require Import ZArith NArith Ascii String.
From stdpp Require Import base option list gmap strings fin_maps.

Local Open Scope string_scope.
Local Open Scope list_scope.

(** ** Values and objects *)

(** A reference into one of the stores: the index of the cell. *)
Abbreviation loc := nat.

(** What a property of a plain object can hold.  Nested objects are held by
    reference, as in JavaScript, so a spread copies the reference only. *)
Inductive value :=
| VNull
| VBool (b : bool)
| VNum (z : Z)
| VStr (s : string)
| VDate (ms : Z)
| VRef (l : loc).

(** A plain object (a [Record<string, unknown>]). *)
Abbreviation object := (gmap string value).

(** ** JSON text, as [JSON.stringify] writes it *)

(** The JSON-serialisable values the mail record is made of (no field of it
    is numeric).  The fields of a [JObj] are listed in property enumeration
    order. *)
#[warnings="-register-all"]
Inductive json :=
| JNull
| JBool (b : bool)
| JStr (s : string)
| JArr (items : list json)
| JObj (fields : list (string * json)).

Definition dquote : ascii := "034"%char.
Definition backslash : ascii := "092"%char.

Definition hex_digit (n : N) : ascii :=
  ascii_of_N (if (n <? 10)%N then 48 + n else 87 + n)%N.

(** QuoteJSONString on one character: the two-character escapes, then
    [\u00xx] for the other control characters, the character itself
    otherwise. *)
Definition escape_char (c : ascii) : string :=
  let n := N_of_ascii c in
  if (n =? 8)%N then String backslash "b"
  else if (n =? 9)%N then String backslash "t"
  else if (n =? 10)%N then String backslash "n"
  else if (n =? 12)%N then String backslash "f"
  else if (n =? 13)%N then String backslash "r"
  else if (n =? 34)%N then String backslash (String dquote "")
  else if (n =? 92)%N then String backslash (String backslash "")
  else if (n <? 32)%N then
    String backslash
      (String "u" (String "0" (String "0"
        (String (hex_digit (n / 16)) (String (hex_digit (n mod 16)) "")))))
  else String c "".

Fixpoint escape_string (s : string) : string :=
  match s with
  | EmptyString => ""
  | String c rest => escape_char c +:+ escape_string rest
  end.

Definition quote_string (s : string) : string :=
  String dquote (escape_string s +:+ String dquote "").

Fixpoint join_comma (parts : list string) : string :=
  match parts with
  | [] => ""
  | [p] => p
  | p :: rest => p +:+ "," +:+ join_comma rest
  end.

Fixpoint JSON_stringify (j : json) : string :=
  match j with
  | JNull => "null"
  | JBool true => "true"
  | JBool false => "false"
  | JStr s => quote_string s
  | JArr items => "[" +:+ join_comma (map JSON_stringify items) +:+ "]"
  | JObj fields =>
      "{" +:+
      join_comma
        (map (fun kv => quote_string (fst kv) +:+ ":" +:+ JSON_stringify (snd kv))
             fields)
      +:+ "}"
  end.

(** ** Errors and settled promises *)

(** What can be thrown.  [AdapterNotFound] is the registry's lookup failure;
    [Thrown] is an error raised by an injected dependency or a transport,
    identified by its payload. *)
Inductive Error :=
| AdapterNotFound (name : string)
| Thrown (reason : string).

(** The settled state of a promise (or the normal/abrupt completion of a
    synchronous call). *)
Inductive Promise (A : Type) :=
| Resolved (a : A)
| Rejected (e : Error).
Arguments Resolved {A} a.
Arguments Rejected {A} e.

(** ** State transformers with exceptions *)

Definition M (S A : Type) : Type := S -> Promise A * S.

Definition ret {S A} (a : A) : M S A := fun s => (Resolved a, s).

Definition throw {S A} (e : Error) : M S A := fun s => (Rejected e, s).

Definition bind {S A B} (m : M S A) (k : A -> M S B) : M S B :=
  fun s =>
    match m s with
    | (Resolved a, s') => k a s'
    | (Rejected e, s') => (Rejected e, s')
    end.

(** [try { m } catch (err) { h err }]: the writes of [m] are kept. *)
Definition try_catch {S A} (m : M S A) (h : Error -> M S A) : M S A :=
  fun s =>
    match m s with
    | (Resolved a, s') => (Resolved a, s')
    | (Rejected e, s') => h e s'
    end.

Definition gets {S A} (f : S -> A) : M S A := fun s => (Resolved (f s), s).

Definition modify {S} (f : S -> S) : M S unit := fun s => (Resolved tt, f s).

Declare Scope eff_scope.
Delimit Scope eff_scope with eff.
Notation "'let!' x ':=' m 'in' k" := (bind m (fun x => k))
  (at level 10, x name, m at level 100, k at level 200, only parsing) : eff_scope.

(** [list.forEach(f)] *)
Fixpoint forEach {S A} (l : list A) (f : A -> M S unit) : M S unit :=
  match l with
  | [] => ret tt
  | x :: rest => bind (f x) (fun _ => forEach rest f)
  end.

Local Open Scope eff_scope.

(** ** Mail *)

Inductive Recipients :=
| OneAddress (address : string)
| ManyAddresses (addresses : list string).

(** The template descriptor [{ view, data? }]: [data] refers to a plain
    object in the object store, or is absent. *)
Record MailViewData := {
  mvd_view : string;
  mvd_data : option loc;
}.

Inductive MailBody :=
| BodyString (s : string)
| BodyView (d : MailViewData).

(** Modelled from the spec: the [Mail] data holder ([src/mail/data/Mail.ts]
    is not among the sources).  It holds recipient(s), sender, subject,
    body (a plain string or a template reference with key-value data), an
    ordered list of attachments and free-form options; it is read through
    getters and mutated through setters. *)
Record Mail := {
  mail_to : Recipients;
  mail_from : string;
  mail_subject : string;
  mail_body : MailBody;
  mail_attachments : list json;
  mail_options : object;
}.

Definition with_body (b : MailBody) (m : Mail) : Mail :=
  {| mail_to := mail_to m; mail_from := mail_from m;
     mail_subject := mail_subject m; mail_body := b;
     mail_attachments := mail_attachments m; mail_options := mail_options m |}.

#[global] Instance Mail_inhabited : Inhabited Mail :=
  populate {| mail_to := ManyAddresses []; mail_from := ""; mail_subject := "";
              mail_body := BodyString ""; mail_attachments := [];
              mail_options := ∅ |}.

(** ** The world outside the service *)

(** Calls received by the injected logger and view renderer. *)
Inductive Event :=
| LogInfo (message context : string)
| LogError (err : Error)
| ViewRender (view : string) (data : object).

Record World := {
  objects : list object;      (* plain objects, by reference *)
  mails : list Mail;          (* Mail instances, by reference *)
  instances : nat;            (* adapter instances constructed so far *)
  clock : Z;                  (* what [new Date()] reads *)
  trace : list Event;         (* calls into the logger and the renderer *)
}.

Definition set_objects (f : list object -> list object) (w : World) : World :=
  {| objects := f (objects w); mails := mails w;
     instances := instances w; clock := clock w; trace := trace w |}.

Definition set_mails (f : list Mail -> list Mail) (w : World) : World :=
  {| objects := objects w; mails := f (mails w);
     instances := instances w; clock := clock w; trace := trace w |}.

Definition set_instances (f : nat -> nat) (w : World) : World :=
  {| objects := objects w; mails := mails w;
     instances := f (instances w); clock := clock w; trace := trace w |}.

Definition emit (ev : Event) (w : World) : World :=
  {| objects := objects w; mails := mails w;
     instances := instances w; clock := clock w; trace := trace w ++ [ev] |}.

(** [new Date()] *)
Definition new_Date : M World value := gets (fun w => VDate (clock w)).

(** Object literal [{ ... }]: a new cell at the end of the store. *)
Definition new_object (o : object) : M World loc :=
  fun w => (Resolved (length (objects w)), set_objects (fun os => os ++ [o]) w).

(** The own properties of the object behind a reference.  A reference held
    by a running program always denotes a cell of the store; an index
    outside the store reads as the empty object. *)
Definition properties (w : World) (l : loc) : object := objects w !!! l.

(** Modelled from the spec: the getters and the body setter of [Mail]. *)
Definition getBody (m : loc) : M World MailBody :=
  gets (fun w => mail_body (mails w !!! m)).
Definition setBody (m : loc) (b : MailBody) : M World unit :=
  modify (set_mails (alter (with_body b) m)).
Definition getTo (m : loc) : M World Recipients :=
  gets (fun w => mail_to (mails w !!! m)).
Definition getFrom (m : loc) : M World string :=
  gets (fun w => mail_from (mails w !!! m)).
Definition getSubject (m : loc) : M World string :=
  gets (fun w => mail_subject (mails w !!! m)).
Definition getAttachments (m : loc) : M World (list json) :=
  gets (fun w => mail_attachments (mails w !!! m)).

(** ** The adapter contract ([interfaces/adapter.ts]) *)

Record MailAdapter := {
  adapter_send : loc -> M World unit;
  adapter_getOptions : object;
}.

Definition MailAdapterConstructor := object -> MailAdapter.

(** ** Injected dependencies, [BaseMailAdapter] and [LocalMailDriver] *)

Section Dependencies.

(** The fields [logger!] and [view!] are declared definitely assigned: the
    dependency loader has run.  The logger records the calls it receives
    in the trace.  The view-render dependency, [render({view, data})],
    reads the data object (and what it refers to) and settles with a
    string or an error. *)
Variable view_render : string -> object -> list object -> Promise string.

Definition logger_info (message context : string) : M World unit :=
  modify (emit (LogInfo message context)).

Definition logger_error (err : Error) : M World unit :=
  modify (emit (LogError err)).

Definition view_render_call (view : string) (data : object) : M World string :=
  fun w => (view_render view data (objects w), emit (ViewRender view data) w).

(** [BaseMailAdapter.generateBodyString] *)
Definition generateBodyString (mail : loc) : M World string :=
  let! body := getBody mail in
  match body with
  | BodyString s => ret s
  | BodyView d =>
      let! data :=
        match mvd_data d with
        | Some l => gets (fun w => properties w l)
        | None => ret ∅      (* [data = {}] *)
        end in
      view_render_call (mvd_view d) data
  end.

Definition recipients_json (r : Recipients) : json :=
  match r with
  | OneAddress a => JStr a
  | ManyAddresses l => JArr (map JStr l)
  end.

(** [LocalMailDriver.send] *)
Definition LocalMailDriver_send (mail : loc) : M World unit :=
  let! to := getTo mail in
  let! from := getFrom mail in
  let! subject := getSubject mail in
  let! body := generateBodyString mail in
  let! attachments := getAttachments mail in
  logger_info "Email"
    (JSON_stringify
       (JObj [("to", recipients_json to);
              ("from", JStr from);
              ("subject", JStr subject);
              ("body", JStr body);
              ("attachments", JArr attachments)])).

(** [LocalMailDriver]: the constructor drops its options and
    [getOptions] answers [{}]. *)
Definition LocalMailDriver : MailAdapterConstructor :=
  fun _options =>
    {| adapter_send := LocalMailDriver_send;
       adapter_getOptions := ∅ |}.

End Dependencies.

(** ** Configuration ([services/MailConfig.ts]) *)

Record MailAdapterConfigItem := {
  cfg_name : string;
  cfg_driver : MailAdapterConstructor;
  cfg_options : object;
}.

Record IMailConfig := {
  cfg_default : string;
  cfg_drivers : list MailAdapterConfigItem;
}.

Definition MailConfig_drivers (drivers : list MailAdapterConfigItem) :
  list MailAdapterConfigItem := drivers.

Definition MailConfig_define (name : string) (driver : MailAdapterConstructor)
    (options : option object) : MailAdapterConfigItem :=
  {| cfg_name := name; cfg_driver := driver;
     cfg_options := default ∅ options |}.

(** ** The service ([services/MailService.ts]) *)

(** An adapter object: what [new adapterConstructor(options)] returned,
    with the identity of the instance. *)
Record AdapterInstance := {
  inst_id : nat;
  inst_adapter : MailAdapter;
}.

Record MailService := {
  mailConfig : IMailConfig;
  localesConfig : loc;                      (* the locale-context object *)
  adapters : gmap string AdapterInstance;   (* the registry of [BaseAdapter] *)
}.

(** A method of the service runs on the service object and the world. *)
Record Runtime := {
  this : MailService;
  world : World;
}.

Definition lift {A} (m : M World A) : M Runtime A :=
  fun rt =>
    let (r, w) := m (world rt) in (r, {| this := this rt; world := w |}).

Definition set_adapters
    (f : gmap string AdapterInstance -> gmap string AdapterInstance)
    (rt : Runtime) : Runtime :=
  {| this := {| mailConfig := mailConfig (this rt);
                localesConfig := localesConfig (this rt);
                adapters := f (adapters (this rt)) |};
     world := world rt |}.

(** Modelled from the spec: [BaseAdapter.addAdapterOnce] of
    [@ben-shepherd/larascript-core], which is not among the sources: a
    registration under an already-registered name is ignored, not an
    overwrite. *)
Definition addAdapterOnce (name : string) (adapter : AdapterInstance) :
  M Runtime unit :=
  fun rt =>
    match adapters (this rt) !! name with
    | Some _ => (Resolved tt, rt)
    | None => (Resolved tt, set_adapters (insert name adapter) rt)
    end.

(** Modelled from the spec: [BaseAdapter.getAdapter] of
    [@ben-shepherd/larascript-core], which is not among the sources: a
    pure lookup that fails if the name is unregistered. *)
Definition getAdapter (name : string) : M Runtime AdapterInstance :=
  fun rt =>
    match adapters (this rt) !! name with
    | Some a => (Resolved a, rt)
    | None => (Rejected (AdapterNotFound name), rt)
    end.

(** [new adapterConstructor(options)] *)
Definition construct (adapterConstructor : MailAdapterConstructor)
    (options : object) : M World AdapterInstance :=
  fun w =>
    (Resolved {| inst_id := instances w;
                 inst_adapter := adapterConstructor options |},
     set_instances S w).

(** [MailService.boot] *)
Definition boot : M Runtime unit :=
  let! drivers := gets (fun rt => cfg_drivers (mailConfig (this rt))) in
  forEach drivers (fun driverConfig =>
    let adapterConstructor := cfg_driver driverConfig in
    let! adapter := lift (construct adapterConstructor (cfg_options driverConfig)) in
    addAdapterOnce (cfg_name driverConfig) adapter).

(** [...(mailBody?.data ?? [])]: the properties of the data object, none
    when it is absent (an empty array has no enumerable property). *)
Definition spread_data (d : MailViewData) : M World object :=
  match mvd_data d with
  | Some l => gets (fun w => properties w l)
  | None => ret ∅
  end.

(** [MailService.addLocalesData] *)
Definition addLocalesData (mail : loc) : M Runtime loc :=
  let! mailBody := lift (getBody mail) in
  match mailBody with
  | BodyView d =>
      let! config :=
        gets (fun rt => properties (world rt) (localesConfig (this rt))) in
      let! date := lift new_Date in
      let! locales := lift (new_object (<["date" := date]> config)) in
      let! entries := lift (spread_data d) in
      let! data := lift (new_object (<["locales" := VRef locales]> entries)) in
      let! _ := lift (setBody mail
                  (BodyView {| mvd_view := mvd_view d; mvd_data := Some data |})) in
      ret mail
  | BodyString _ => ret mail
  end.

(** [MailService.send]: the [try] block, the [catch] clause, and the method
    with its defaulted [driver] parameter. *)
Definition send_try (mail : loc) (driver : string) : M Runtime unit :=
  let! mail := addLocalesData mail in
  let! adapter := getAdapter driver in
  lift (adapter_send (inst_adapter adapter) mail).

Definition send_catch (err : Error) : M Runtime unit :=
  let! _ := lift (logger_error err) in
  throw err.

Definition send (mail : loc) (driver : option string) : M Runtime unit :=
  let! driver :=
    match driver with
    | Some name => ret name
    | None => gets (fun rt => cfg_default (mailConfig (this rt)))
    end in
  try_catch (send_try mail driver) send_catch.

(** [MailService.getDefaultDriver] *)
Definition getDefaultDriver : M Runtime AdapterInstance :=
  let! name := gets (fun rt => cfg_default (mailConfig (this rt))) in
  getAdapter name.

(** [MailService.getDriver] *)
Definition getDriver (name : string) : M Runtime AdapterInstance :=
  getAdapter name.

(** * Vocabulary of the statements and sample data *)

(** The locales object that [addLocalesData] builds in world [w] for the
    locale context at [lc]. *)
Definition locales_of (lc : loc) (w : World) : object :=
  <["date" := VDate (clock w)]> (properties w lc).

(** The driver name [send] resolves: the argument, or the configured
    default when it is omitted. *)
Definition driver_name (driver : option string) (rt : Runtime) : string :=
  default (cfg_default (mailConfig (this rt))) driver.

(** What [send] makes of the adapter's settled promise: a rejection is
    logged through the logger's error path, once, and thrown again. *)
Definition settle (svc : MailService) (r : Promise unit * World) :
  Promise unit * Runtime :=
  match r with
  | (Resolved u, w2) => (Resolved u, {| this := svc; world := w2 |})
  | (Rejected e, w2) =>
      (Rejected e, {| this := svc; world := emit (LogError e) w2 |})
  end.

(** The data object a template descriptor is rendered with. *)
Definition render_data (d : MailViewData) (w : World) : object :=
  match mvd_data d with
  | Some l => properties w l
  | None => ∅
  end.

(** The record [LocalMailDriver.send] serialises. *)
Definition email_record (m : Mail) (body : string) : json :=
  JObj [("to", recipients_json (mail_to m));
        ("from", JStr (mail_from m));
        ("subject", JStr (mail_subject m));
        ("body", JStr body);
        ("attachments", JArr (mail_attachments m))].

(** An adapter that reads the mail and the objects it refers to but writes
    to neither store. *)
Definition adapter_readonly (a : MailAdapter) : Prop :=
  forall mail w,
    objects (snd (adapter_send a mail w)) = objects w
    /\ mails (snd (adapter_send a mail w)) = mails w.

(** One turn of the loop in [boot] on the registry: the instance numbered
    [n] is registered under the entry's name unless the name is taken. *)
Definition register_entry (d : MailAdapterConfigItem) (n : nat)
    (reg : gmap string AdapterInstance) : gmap string AdapterInstance :=
  match reg !! cfg_name d with
  | Some _ => reg
  | None =>
      <[cfg_name d := {| inst_id := n;
                         inst_adapter := cfg_driver d (cfg_options d) |}]> reg
  end.

Fixpoint registry_after (ds : list MailAdapterConfigItem) (n : nat)
    (reg : gmap string AdapterInstance) : gmap string AdapterInstance :=
  match ds with
  | [] => reg
  | d :: rest => registry_after rest (S n) (register_entry d n reg)
  end.

(** The body of the loop in [boot]. *)
Definition boot_step (driverConfig : MailAdapterConfigItem) : M Runtime unit :=
  bind (lift (construct (cfg_driver driverConfig) (cfg_options driverConfig)))
       (fun adapter => addAdapterOnce (cfg_name driverConfig) adapter).

(** ** Sample data *)

(** A renderer that always succeeds and one that always fails. *)
Definition render_ok : string -> object -> list object -> Promise string :=
  fun view _ _ => Resolved ("<" +:+ view +:+ ">").

Definition render_failing : string -> object -> list object -> Promise string :=
  fun _ _ _ => Rejected (Thrown "template missing").

Definition sample_mail (body : MailBody) : Mail :=
  {| mail_to := OneAddress "a@b.com"; mail_from := "c@d.com";
     mail_subject := "Hi"; mail_body := body;
     mail_attachments := []; mail_options := ∅ |}.

(** Object 0 is the locale context, objects 1 and 2 are template data;
    mail 0 has a string body, mails 1 to 3 are template-shaped (with data
    [{a: 1}], without data, and with data that has a [locales] key). *)
Definition sample_world : World :=
  {| objects := [ {["app" := VStr "demo"]};
                  {["a" := VNum 1]};
                  {["locales" := VNum 1]} ];
     mails := [ sample_mail (BodyString "Hello");
                sample_mail (BodyView {| mvd_view := "x"; mvd_data := Some 1 |});
                sample_mail (BodyView {| mvd_view := "x"; mvd_data := None |});
                sample_mail (BodyView {| mvd_view := "x"; mvd_data := Some 2 |}) ];
     instances := 0;
     clock := 1700000000000;
     trace := [] |}.

Definition sample_config (render : string -> object -> list object -> Promise string)
    (options : object) : IMailConfig :=
  {| cfg_default := "local";
     cfg_drivers :=
       MailConfig_drivers
         [MailConfig_define "local" (LocalMailDriver render) (Some options)] |}.

Definition unbooted (render : string -> object -> list object -> Promise string)
    (options : object) : Runtime :=
  {| this := {| mailConfig := sample_config render options;
                localesConfig := 0;
                adapters := ∅ |};
     world := sample_world |}.

Definition booted (render : string -> object -> list object -> Promise string)
    (options : object) : Runtime :=
  snd (boot (unbooted render options)).

(** The errors handed to the logger's error path, in order. *)
Definition errors_logged (tr : list Event) : list Error :=
  omap (fun ev => match ev with LogError e => Some e | _ => None end) tr.

(** Non-empty constructor options. *)
Definition keyed_options : object := {["apiKey" := VStr "k"]}.

(** A registry that holds only adapters that leave the stores alone. *)
Definition registry_readonly (rt : Runtime) : Prop :=
  forall name inst,
    adapters (this rt) !! name = Some inst -> adapter_readonly (inst_adapter inst).

(** A configuration with three entries, two of them under the same name. *)
Definition duplicate_config : IMailConfig :=
  {| cfg_default := "local";
     cfg_drivers :=
       MailConfig_drivers
         [MailConfig_define "local" (LocalMailDriver render_ok) None;
          MailConfig_define "local" (LocalMailDriver render_failing)
            (Some keyed_options);
          MailConfig_define "backup" (LocalMailDriver render_failing) None] |}.

Definition duplicate_unbooted : Runtime :=
  {| this := {| mailConfig := duplicate_config;
                localesConfig := 0;
                adapters := ∅ |};
     world := sample_world |}.

(** * Properties *)

(** ** [JSON.stringify] on a sample *)

Example JSON_stringify_sample :
  JSON_stringify
    (JObj [("to", JArr [JStr "a@b.com"; JStr "e@f.com"]);
           ("body", JStr (String "010"%char (String dquote "hi")));
           ("ok", JBool true); ("none", JNull)])
  = "{" +:+ String dquote "to" +:+ String dquote ":["
    +:+ String dquote "a@b.com" +:+ String dquote ","
    +:+ String dquote "e@f.com" +:+ String dquote "],"
    +:+ String dquote "body" +:+ String dquote ":"
    +:+ String dquote (String backslash "n")
    +:+ String backslash (String dquote "hi") +:+ String dquote ","
    +:+ String dquote "ok" +:+ String dquote ":true,"
    +:+ String dquote "none" +:+ String dquote ":null}".
Proof. reflexivity. Qed.

(** ** How the monadic steps run *)

Lemma bind_resolved {S A B} (m : M S A) (k : A -> M S B) s a s' :
  m s = (Resolved a, s') -> bind m k s = k a s'.
Proof. intros H. unfold bind. now rewrite H. Qed.

(** ** The locale merge, step by step *)

Lemma addLocalesData_string mail rt s :
  mail_body (mails (world rt) !!! mail) = BodyString s ->
  addLocalesData mail rt = (Resolved mail, rt).
Proof.
  intros Hb. destruct rt as [svc w]; simpl in *.
  unfold addLocalesData, bind, lift, getBody, gets; simpl.
  now rewrite Hb.
Qed.

Lemma addLocalesData_view mail rt d :
  mail_body (mails (world rt) !!! mail) = BodyView d ->
  addLocalesData mail rt =
    (Resolved mail,
     {| this := this rt;
        world :=
          let w := world rt in
          let stored := objects w ++ [locales_of (localesConfig (this rt)) w] in
          let entries :=
            match mvd_data d with
            | Some l => stored !!! l
            | None => ∅
            end in
          {| objects := stored ++ [<["locales" := VRef (length (objects w))]> entries];
             mails :=
               alter (with_body (BodyView {| mvd_view := mvd_view d;
                                             mvd_data := Some (length stored) |}))
                     mail (mails w);
             instances := instances w;
             clock := clock w;
             trace := trace w |} |}).
Proof.
  intros Hb. destruct rt as [svc w]; simpl in *.
  unfold addLocalesData, bind, lift, getBody, gets; simpl.
  rewrite Hb. unfold spread_data.
  destruct (mvd_data d); reflexivity.
Qed.

(** The merge always completes normally, returns the mail it was given and
    touches neither the service object nor the trace. *)
Lemma addLocalesData_total mail rt :
  exists w1,
    addLocalesData mail rt = (Resolved mail, {| this := this rt; world := w1 |})
    /\ trace w1 = trace (world rt)
    /\ clock w1 = clock (world rt)
    /\ instances w1 = instances (world rt).
Proof.
  destruct (mail_body (mails (world rt) !!! mail)) as [s|d] eqn:Hb.
  - exists (world rt). rewrite (addLocalesData_string _ _ _ Hb).
    destruct rt; auto.
  - eexists. rewrite (addLocalesData_view _ _ _ Hb). simpl. auto.
Qed.

Lemma send_default mail driver rt :
  send mail driver rt =
    try_catch (send_try mail (driver_name driver rt)) send_catch rt.
Proof. unfold send, driver_name. destruct driver; reflexivity. Qed.

Lemma send_try_run mail name rt :
  send_try mail name rt =
    let w1 := world (snd (addLocalesData mail rt)) in
    match adapters (this rt) !! name with
    | None => (Rejected (AdapterNotFound name), {| this := this rt; world := w1 |})
    | Some a =>
        let (r, w2) := adapter_send (inst_adapter a) mail w1 in
        (r, {| this := this rt; world := w2 |})
    end.
Proof.
  destruct (addLocalesData_total mail rt) as (w1 & Hrun & _).
  unfold send_try. rewrite (bind_resolved _ _ _ _ _ Hrun).
  rewrite Hrun. cbn [snd world].
  unfold bind, getAdapter, lift. cbn [this world].
  destruct (adapters (this rt) !! name) as [a|]; reflexivity.
Qed.

Lemma send_run mail driver rt :
  send mail driver rt =
    let name := driver_name driver rt in
    let w1 := world (snd (addLocalesData mail rt)) in
    match adapters (this rt) !! name with
    | None => settle (this rt) (Rejected (AdapterNotFound name), w1)
    | Some a => settle (this rt) (adapter_send (inst_adapter a) mail w1)
    end.
Proof.
  rewrite send_default. unfold try_catch. rewrite send_try_run. cbn zeta.
  destruct (adapters (this rt) !! driver_name driver rt) as [a|].
  - destruct (adapter_send (inst_adapter a) mail _) as [[u|e] w2]; reflexivity.
  - reflexivity.
Qed.

(** ** Body resolution and the local driver, step by step *)

Section BodyResolution.

Variable view_render : string -> object -> list object -> Promise string.

Lemma generateBodyString_string mail w s :
  mail_body (mails w !!! mail) = BodyString s ->
  generateBodyString view_render mail w = (Resolved s, w).
Proof.
  intros Hb. unfold generateBodyString, bind, getBody, gets. now rewrite Hb.
Qed.

Lemma generateBodyString_view mail w d :
  mail_body (mails w !!! mail) = BodyView d ->
  generateBodyString view_render mail w =
    (view_render (mvd_view d) (render_data d w) (objects w),
     emit (ViewRender (mvd_view d) (render_data d w)) w).
Proof.
  intros Hb. unfold generateBodyString, bind, getBody, gets. rewrite Hb.
  unfold render_data, view_render_call.
  destruct (mvd_data d); reflexivity.
Qed.

Lemma generateBodyString_mails mail w :
  mails (snd (generateBodyString view_render mail w)) = mails w
  /\ objects (snd (generateBodyString view_render mail w)) = objects w.
Proof.
  destruct (mail_body (mails w !!! mail)) as [s|d] eqn:Hb.
  - now rewrite (generateBodyString_string _ _ _ Hb).
  - now rewrite (generateBodyString_view _ _ _ Hb).
Qed.

Lemma LocalMailDriver_send_run mail w :
  LocalMailDriver_send view_render mail w =
    match generateBodyString view_render mail w with
    | (Resolved body, w1) =>
        (Resolved tt,
         emit (LogInfo "Email"
                 (JSON_stringify (email_record (mails w !!! mail) body))) w1)
    | (Rejected e, w1) => (Rejected e, w1)
    end.
Proof.
  unfold LocalMailDriver_send, bind, getTo, getFrom, getSubject,
    getAttachments, gets, logger_info, modify. simpl.
  pose proof (generateBodyString_mails mail w) as [Hm _].
  destruct (generateBodyString view_render mail w) as [[body|e] w1];
    simpl in *; [|reflexivity].
  now rewrite Hm.
Qed.

End BodyResolution.

(** ** Adapters that leave the stores alone *)

Lemma LocalMailDriver_readonly view_render options :
  adapter_readonly (LocalMailDriver view_render options).
Proof.
  intros mail w. simpl. rewrite LocalMailDriver_send_run.
  pose proof (generateBodyString_mails view_render mail w) as [Hm Ho].
  destruct (generateBodyString view_render mail w) as [[body|e] w1];
    simpl in *; auto.
Qed.

(** ** The registry after [boot] *)

Lemma boot_loop ds : forall svc w,
  forEach ds boot_step {| this := svc; world := w |} =
    (Resolved tt,
     {| this := {| mailConfig := mailConfig svc;
                   localesConfig := localesConfig svc;
                   adapters := registry_after ds (instances w) (adapters svc) |};
        world := {| objects := objects w; mails := mails w;
                    instances := length ds + instances w;
                    clock := clock w; trace := trace w |} |}).
Proof.
  induction ds as [|d rest IH]; intros [cfg lc reg] [os ms n c t].
  - reflexivity.
  - cbn [forEach]. unfold bind at 1.
    assert (Hstep :
      boot_step d {| this := {| mailConfig := cfg; localesConfig := lc;
                                adapters := reg |};
                     world := {| objects := os; mails := ms; instances := n;
                                 clock := c; trace := t |} |}
      = (Resolved tt,
         {| this := {| mailConfig := cfg; localesConfig := lc;
                       adapters := register_entry d n reg |};
            world := {| objects := os; mails := ms; instances := S n;
                        clock := c; trace := t |} |})).
    { unfold boot_step, bind, lift, construct, addAdapterOnce, register_entry,
        set_adapters, set_instances. cbn.
      destruct (reg !! cfg_name d); reflexivity. }
    rewrite Hstep, IH. cbn.
    now rewrite Nat.add_succ_r.
Qed.

Lemma boot_run rt :
  boot rt =
    (Resolved tt,
     {| this := {| mailConfig := mailConfig (this rt);
                   localesConfig := localesConfig (this rt);
                   adapters :=
                     registry_after (cfg_drivers (mailConfig (this rt)))
                       (instances (world rt)) (adapters (this rt)) |};
        world := {| objects := objects (world rt); mails := mails (world rt);
                    instances := length (cfg_drivers (mailConfig (this rt)))
                                 + instances (world rt);
                    clock := clock (world rt); trace := trace (world rt) |} |}).
Proof.
  destruct rt as [svc w]. unfold boot, bind, gets. cbn [this world].
  apply (boot_loop (cfg_drivers (mailConfig svc)) svc w).
Qed.

Lemma register_entry_keeps d n (reg : gmap string AdapterInstance) k a :
  reg !! k = Some a -> register_entry d n reg !! k = Some a.
Proof.
  intros Hk. unfold register_entry.
  destruct (reg !! cfg_name d) eqn:Hd; [exact Hk|].
  rewrite lookup_insert_ne; [exact Hk|]. intros Heq. rewrite Heq in Hd. congruence.
Qed.

Lemma register_entry_registered d n (reg : gmap string AdapterInstance) :
  is_Some (register_entry d n reg !! cfg_name d).
Proof.
  unfold register_entry. destruct (reg !! cfg_name d) eqn:Hd.
  - rewrite Hd. eauto.
  - rewrite lookup_insert_eq. eauto.
Qed.

Lemma registry_after_keeps ds : forall n (reg : gmap string AdapterInstance) k a,
  reg !! k = Some a -> registry_after ds n reg !! k = Some a.
Proof.
  induction ds as [|d rest IH]; intros n reg k a Hk; cbn; [exact Hk|].
  apply IH. now apply register_entry_keeps.
Qed.

Lemma registry_after_registered ds : forall n (reg : gmap string AdapterInstance) d,
  d ∈ ds -> is_Some (registry_after ds n reg !! cfg_name d).
Proof.
  induction ds as [|d0 rest IH]; intros n reg d Hd.
  - inversion Hd.
  - cbn. apply elem_of_cons in Hd as [->|Hd].
    + destruct (register_entry_registered d0 n reg) as [a Ha].
      exists a. now apply registry_after_keeps.
    + now apply IH.
Qed.

(** Registration under names that are all taken changes nothing. *)
Lemma registry_after_taken ds : forall n (reg : gmap string AdapterInstance),
  (forall d, d ∈ ds -> is_Some (reg !! cfg_name d)) ->
  registry_after ds n reg = reg.
Proof.
  induction ds as [|d rest IH]; intros n reg Hall; cbn; [reflexivity|].
  assert (Hd : register_entry d n reg = reg).
  { unfold register_entry. destruct (Hall d) as [a Ha]; [left|]. now rewrite Ha. }
  rewrite Hd. apply IH. intros d' Hd'. apply Hall. now right.
Qed.

(** The first entry of a name wins: the instance it constructs is the one
    registered. *)
Lemma registry_after_first pre d post n (reg : gmap string AdapterInstance) :
  reg !! cfg_name d = None ->
  (forall p, p ∈ pre -> cfg_name p <> cfg_name d) ->
  registry_after (pre ++ d :: post) n reg !! cfg_name d =
    Some {| inst_id := n + length pre;
            inst_adapter := cfg_driver d (cfg_options d) |}.
Proof.
  revert n reg. induction pre as [|p pre IH]; intros n reg Hfree Hpre.
  - cbn. apply registry_after_keeps. unfold register_entry. rewrite Hfree.
    rewrite lookup_insert_eq. now rewrite Nat.add_0_r.
  - cbn. replace (n + S (length pre)) with (S n + length pre) by lia.
    apply IH.
    + unfold register_entry. destruct (reg !! cfg_name p); [exact Hfree|].
      rewrite lookup_insert_ne; [exact Hfree|]. apply Hpre. now left.
    + intros q Hq. apply Hpre. now right.
Qed.

Lemma registry_after_dom ds : forall n (reg : gmap string AdapterInstance),
  dom (registry_after ds n reg) = dom reg ∪ list_to_set (cfg_name <$> ds).
Proof.
  induction ds as [|d rest IH]; intros n reg; cbn.
  - set_solver.
  - rewrite IH. unfold register_entry.
    destruct (reg !! cfg_name d) eqn:Hd.
    + assert (cfg_name d ∈ dom reg) by (apply elem_of_dom; eauto). set_solver.
    + rewrite dom_insert_L. set_solver.
Qed.

Lemma errors_logged_app tr1 tr2 :
  errors_logged (tr1 ++ tr2) = errors_logged tr1 ++ errors_logged tr2.
Proof. unfold errors_logged. apply omap_app. Qed.

(** ** Failures of [send] *)

(** C1: whenever the [try] block of [MailService.send] (locale merge,
    adapter lookup, the adapter's send) ends in an error [e], [send] hands
    exactly that error to the logger's error path, once, after everything
    the block did, and its promise rejects with that same error.  In
    particular a render failure under the local driver leaves the trace
    extended by the render call and one error record, and rejects with the
    render error. *)
Theorem send_failure_logged_once_and_rethrown mail driver rt :
  (forall e rt1,
     send_try mail (driver_name driver rt) rt = (Rejected e, rt1) ->
     send mail driver rt =
       (Rejected e, {| this := this rt1; world := emit (LogError e) (world rt1) |})
     /\ errors_logged (trace (world (snd (send mail driver rt))))
        = errors_logged (trace (world rt1)) ++ [e])
  /\ (forall view_render inst d e,
        adapters (this rt) !! driver_name driver rt = Some inst ->
        adapter_send (inst_adapter inst) = LocalMailDriver_send view_render ->
        let w1 := world (snd (addLocalesData mail rt)) in
        mail_body (mails w1 !!! mail) = BodyView d ->
        view_render (mvd_view d) (render_data d w1) (objects w1) = Rejected e ->
        fst (send mail driver rt) = Rejected e
        /\ trace (world (snd (send mail driver rt)))
           = trace (world rt)
             ++ [ViewRender (mvd_view d) (render_data d w1); LogError e]).
Proof.
  split.
  - intros e rt1 Htry.
    assert (Hsend : send mail driver rt =
      (Rejected e, {| this := this rt1; world := emit (LogError e) (world rt1) |})).
    { rewrite send_default. unfold try_catch. rewrite Htry.
      unfold send_catch, bind, lift, logger_error, modify, throw. reflexivity. }
    rewrite Hsend. cbn [snd world emit trace].
    split; [reflexivity|]. now rewrite errors_logged_app.
  - intros view_render inst d e Hreg Hlocal w1 Hbody Hrender.
    rewrite send_run. cbn zeta. rewrite Hreg, Hlocal.
    rewrite LocalMailDriver_send_run.
    fold w1. rewrite (generateBodyString_view _ _ _ _ Hbody), Hrender.
    cbn [settle fst snd world emit trace].
    split; [reflexivity|].
    destruct (addLocalesData_total mail rt) as (w1' & Hrun & Htr & _).
    subst w1. rewrite Hrun. cbn [snd world]. rewrite Htr.
    now rewrite <- app_assoc.
Qed.

Lemma send_failure_logged_once_and_rethrown_witness :
  send 1 None (booted render_failing ∅) =
    (Rejected (Thrown "template missing"),
     {| this := this (snd (send_try 1 "local" (booted render_failing ∅)));
        world := emit (LogError (Thrown "template missing"))
                   (world (snd (send_try 1 "local" (booted render_failing ∅)))) |})
  /\ errors_logged (trace (world (snd (send 1 None (booted render_failing ∅)))))
     = [Thrown "template missing"]
  /\ trace (world (snd (send 1 None (booted render_failing ∅))))
     = [ViewRender "x" {["a" := VNum 1; "locales" := VRef 3]};
        LogError (Thrown "template missing")].
Proof.
  destruct (send_failure_logged_once_and_rethrown 1 None (booted render_failing ∅))
    as [Hgeneral Hrender].
  destruct (Hgeneral (Thrown "template missing")
              (snd (send_try 1 "local" (booted render_failing ∅))))
    as [Hsend Herr].
  { reflexivity. }
  split; [exact Hsend|]. split.
  { rewrite Herr. reflexivity. }
  destruct (Hrender render_failing
              {| inst_id := 0; inst_adapter := LocalMailDriver render_failing ∅ |}
              {| mvd_view := "x"; mvd_data := Some 4 |}
              (Thrown "template missing")
              eq_refl eq_refl eq_refl eq_refl) as [_ Htrace].
  rewrite Htrace. reflexivity.
Defined.

(** ** The world after the locale merge *)

Lemma lookup_total_of_lookup {A} `{Inhabited A} (l : list A) i x :
  l !! i = Some x -> l !!! i = x.
Proof. intros Hl. now apply list_lookup_total_correct. Qed.

(** The two cells allocated at the end of a store. *)
Lemma lookup_allocated_first {A} (l : list A) x y :
  (l ++ [x; y]) !! length l = Some x.
Proof. now apply list_lookup_middle. Qed.

Lemma lookup_allocated_second {A} (l : list A) x y :
  (l ++ [x; y]) !! S (length l) = Some y.
Proof.
  rewrite (cons_middle x l [y]), app_assoc.
  apply list_lookup_middle. rewrite length_app. cbn. lia.
Qed.

(** The stores after the merge on a template-shaped mail: two objects are
    appended (the locales object, then the new data object) and the mail's
    body is replaced; nothing else is written. *)
Lemma merged_world mail rt m d :
  mails (world rt) !! mail = Some m ->
  mail_body m = BodyView d ->
  let w := world rt in
  let w1 := world (snd (addLocalesData mail rt)) in
  let n := length (objects w) in
  let locales := locales_of (localesConfig (this rt)) w in
  let entries :=
    match mvd_data d with
    | Some l => (objects w ++ [locales]) !!! l
    | None => ∅
    end in
  objects w1 = objects w ++ [locales; <["locales" := VRef n]> entries]
  /\ mails w1 =
       <[mail := with_body (BodyView {| mvd_view := mvd_view d;
                                        mvd_data := Some (S n) |}) m]> (mails w)
  /\ trace w1 = trace w /\ clock w1 = clock w /\ instances w1 = instances w.
Proof.
  intros Hm Hb. cbn zeta.
  assert (Hbody : mail_body (mails (world rt) !!! mail) = BodyView d).
  { now rewrite (lookup_total_of_lookup _ _ _ Hm). }
  rewrite (addLocalesData_view _ _ _ Hbody). cbn [snd world objects mails trace
    clock instances].
  repeat split.
  - now rewrite <- app_assoc.
  - rewrite length_app, Nat.add_1_r.
    apply list_eq. intros i. destruct (decide (i = mail)) as [->|Hne].
    + rewrite list_lookup_alter_eq, Hm. cbn.
      rewrite list_lookup_insert_eq; [reflexivity|]. now apply lookup_lt_Some in Hm.
    + rewrite list_lookup_alter_ne by congruence.
      now rewrite list_lookup_insert_ne by congruence.
Qed.

(** [send] on a registered driver: the adapter runs once, on the world the
    merge left, and its outcome is settled by the [catch] clause. *)
Lemma send_registered mail driver rt inst :
  adapters (this rt) !! driver_name driver rt = Some inst ->
  send mail driver rt =
    settle (this rt)
      (adapter_send (inst_adapter inst) mail
         (world (snd (addLocalesData mail rt)))).
Proof. intros Hreg. rewrite send_run. cbn zeta. now rewrite Hreg. Qed.

(** ** The locale merge seen by the adapter *)

(** C2 as stated fails: template data that already has a [locales] entry
    does not reach the adapter unchanged.  Mail 3 carries data
    [{locales: 1}]; the adapter (and the renderer) receive a data object
    whose [locales] entry is the injected locales object instead. *)
Lemma send_template_data_kept_counterexample :
  mail_body (mails (world (booted render_ok ∅)) !!! 3)
    = BodyView {| mvd_view := "x"; mvd_data := Some 2 |}
  /\ properties (world (booted render_ok ∅)) 2 !! "locales" = Some (VNum 1)
  /\ mail_body (mails (world (snd (addLocalesData 3 (booted render_ok ∅)))) !!! 3)
     = BodyView {| mvd_view := "x"; mvd_data := Some 4 |}
  /\ properties (world (snd (addLocalesData 3 (booted render_ok ∅)))) 4 !! "locales"
     = Some (VRef 3)
  /\ ~ (forall k v,
          properties (world (booted render_ok ∅)) 2 !! k = Some v ->
          properties (world (snd (addLocalesData 3 (booted render_ok ∅)))) 4 !! k
            = Some v)
  /\ trace (world (snd (send 3 None (booted render_ok ∅))))
     = [ViewRender "x" {["locales" := VRef 3]};
        LogInfo "Email"
          (JSON_stringify
             (email_record
                (sample_mail (BodyView {| mvd_view := "x"; mvd_data := Some 4 |}))
                "<x>"))].
Proof.
  repeat split; try reflexivity.
  intros Hall. specialize (Hall "locales" (VNum 1) eq_refl). discriminate Hall.
Qed.

(** C2 (amended): for a template-shaped mail with data object [D] and a
    registered driver, [send] runs the adapter on a world in which the
    mail's body keeps its view and refers to a data object [D'];
    [D'] agrees with [D] on every key other than [locales], and its
    [locales] entry refers to an object holding the locale context with
    [date] set to the current time.  Both objects are newly allocated
    (their references denote nothing before the call) and no object that
    existed before is written, [D] and the locale context included; under
    the local driver the renderer is called with [D'].  A mail with a
    plain string body reaches the adapter in the unchanged world. *)
Theorem send_merges_locales_into_template_data mail driver rt m inst :
  mails (world rt) !! mail = Some m ->
  adapters (this rt) !! driver_name driver rt = Some inst ->
  (forall d ld D,
     mail_body m = BodyView d ->
     mvd_data d = Some ld ->
     objects (world rt) !! ld = Some D ->
     exists w1 ll ld' D',
       send mail driver rt
         = settle (this rt) (adapter_send (inst_adapter inst) mail w1)
       /\ mails w1 !! mail
          = Some (with_body (BodyView {| mvd_view := mvd_view d;
                                         mvd_data := Some ld' |}) m)
       /\ objects w1 !! ld' = Some D'
       /\ (forall k, k <> "locales" -> D' !! k = D !! k)
       /\ D' !! "locales" = Some (VRef ll)
       /\ objects w1 !! ll
          = Some (<["date" := VDate (clock (world rt))]>
                    (properties (world rt) (localesConfig (this rt))))
       /\ objects w1 !! ld = Some D
       /\ objects (world rt) !! ld' = None
       /\ objects (world rt) !! ll = None
       /\ ll <> ld'
       /\ (forall l o,
             objects (world rt) !! l = Some o -> objects w1 !! l = Some o)
       /\ (forall view_render,
             adapter_send (inst_adapter inst) = LocalMailDriver_send view_render ->
             exists rest,
               trace (world (snd (send mail driver rt)))
               = trace (world rt) ++ ViewRender (mvd_view d) D' :: rest))
  /\ (forall s,
        mail_body m = BodyString s ->
        send mail driver rt
          = settle (this rt) (adapter_send (inst_adapter inst) mail (world rt))).
Proof.
  intros Hm Hreg. split.
  - intros d ld D Hb Hd HD.
    destruct (merged_world mail rt m d Hm Hb) as (Hobjs & Hmails & Htr & _).
    cbn zeta in Hobjs, Hmails. rewrite Hd in Hobjs.
    rewrite (lookup_total_of_lookup _ ld D) in Hobjs
      by (now apply lookup_app_l_Some).
    set (w1 := world (snd (addLocalesData mail rt))) in *.
    assert (Hll : objects w1 !! length (objects (world rt))
                  = Some (locales_of (localesConfig (this rt)) (world rt))).
    { rewrite Hobjs. apply lookup_allocated_first. }
    assert (Hld' : objects w1 !! S (length (objects (world rt)))
                   = Some (<["locales" := VRef (length (objects (world rt)))]> D)).
    { rewrite Hobjs. apply lookup_allocated_second. }
    assert (Hmail : mails w1 !! mail
                    = Some (with_body
                              (BodyView {| mvd_view := mvd_view d;
                                           mvd_data :=
                                             Some (S (length (objects (world rt)))) |})
                              m)).
    { rewrite Hmails. apply list_lookup_insert_eq. now apply lookup_lt_Some in Hm. }
    exists w1, (length (objects (world rt))), (S (length (objects (world rt)))),
      (<["locales" := VRef (length (objects (world rt)))]> D).
    split; [now apply send_registered|].
    split; [exact Hmail|]. split; [exact Hld'|].
    split; [intros k Hk; now rewrite lookup_insert_ne|].
    split; [apply lookup_insert_eq|].
    split; [exact Hll|].
    split; [rewrite Hobjs; now apply lookup_app_l_Some|].
    split; [apply lookup_ge_None_2; lia|].
    split; [apply lookup_ge_None_2; lia|].
    split; [lia|].
    split; [intros l o Hl; rewrite Hobjs; now apply lookup_app_l_Some|].
    intros view_render Hlocal.
    rewrite (send_registered _ _ _ _ Hreg). fold w1. rewrite Hlocal.
    rewrite LocalMailDriver_send_run.
    assert (Hbody1 : mail_body (mails w1 !!! mail)
                     = BodyView {| mvd_view := mvd_view d;
                                   mvd_data := Some (S (length (objects (world rt)))) |}).
    { now rewrite (lookup_total_of_lookup _ _ _ Hmail). }
    rewrite (generateBodyString_view _ _ _ _ Hbody1).
    unfold render_data, properties. cbn [mvd_data mvd_view].
    rewrite (lookup_total_of_lookup _ _ _ Hld').
    destruct (view_render _ _ _) as [body|e];
      cbn [settle snd world emit trace]; rewrite Htr, <- !app_assoc; eauto.
  - intros s Hb.
    rewrite (send_registered _ _ _ _ Hreg).
    rewrite addLocalesData_string with (s := s); [reflexivity|].
    now rewrite (lookup_total_of_lookup _ _ _ Hm).
Qed.

Lemma send_merges_locales_into_template_data_witness :
  (exists w1 ll ld' D',
     send 1 None (booted render_ok ∅)
       = settle (this (booted render_ok ∅))
           (LocalMailDriver_send render_ok 1 w1)
     /\ objects w1 !! ld' = Some D'
     /\ D' !! "a" = Some (VNum 1)
     /\ D' !! "locales" = Some (VRef ll)
     /\ objects (world (booted render_ok ∅)) !! ll = None
     /\ objects (world (booted render_ok ∅)) !! ld' = None
     /\ objects w1 !! 0 = Some {["app" := VStr "demo"]}
     /\ exists rest,
          trace (world (snd (send 1 None (booted render_ok ∅))))
          = ViewRender "x" D' :: rest)
  /\ send 0 None (booted render_ok ∅)
     = settle (this (booted render_ok ∅))
         (LocalMailDriver_send render_ok 0 (world (booted render_ok ∅))).
Proof.
  split.
  - destruct (send_merges_locales_into_template_data 1 None (booted render_ok ∅)
                (sample_mail (BodyView {| mvd_view := "x"; mvd_data := Some 1 |}))
                {| inst_id := 0; inst_adapter := LocalMailDriver render_ok ∅ |}
                eq_refl eq_refl) as [Hview _].
    destruct (Hview {| mvd_view := "x"; mvd_data := Some 1 |} 1
                {["a" := VNum 1]} eq_refl eq_refl eq_refl)
      as (w1 & ll & ld' & D' & Hsend & _ & Hdata & Hkeys & Hloc & _ & _
          & Hnew_data & Hnew_locales & _ & Hkept & Hrender).
    exists w1, ll, ld', D'.
    split; [exact Hsend|]. split; [exact Hdata|].
    split; [rewrite Hkeys; [reflexivity | discriminate]|].
    split; [exact Hloc|].
    split; [exact Hnew_locales|]. split; [exact Hnew_data|].
    split; [exact (Hkept 0 _ eq_refl)|].
    exact (Hrender render_ok eq_refl).
  - destruct (send_merges_locales_into_template_data 0 None (booted render_ok ∅)
                (sample_mail (BodyString "Hello"))
                {| inst_id := 0; inst_adapter := LocalMailDriver render_ok ∅ |}
                eq_refl eq_refl) as [_ Hstring].
    exact (Hstring "Hello" eq_refl).
Defined.

(** ** Body resolution *)

(** C3: [BaseMailAdapter.generateBodyString] returns a plain string body
    as it is, without calling the renderer; for a template descriptor it
    calls the injected renderer once with the view and the data object and
    settles exactly as the renderer does, so a render failure propagates. *)
Theorem generateBodyString_resolves view_render mail w m :
  mails w !! mail = Some m ->
  (forall s,
     mail_body m = BodyString s ->
     generateBodyString view_render mail w = (Resolved s, w))
  /\ (forall d ld D,
        mail_body m = BodyView d ->
        mvd_data d = Some ld ->
        objects w !! ld = Some D ->
        generateBodyString view_render mail w
          = (view_render (mvd_view d) D (objects w),
             emit (ViewRender (mvd_view d) D) w)
        /\ (forall e,
              view_render (mvd_view d) D (objects w) = Rejected e ->
              fst (generateBodyString view_render mail w) = Rejected e)
        /\ (forall html,
              view_render (mvd_view d) D (objects w) = Resolved html ->
              fst (generateBodyString view_render mail w) = Resolved html)).
Proof.
  intros Hm.
  assert (Htotal : mails w !!! mail = m) by now apply lookup_total_of_lookup.
  split.
  - intros s Hb. apply generateBodyString_string. now rewrite Htotal.
  - intros d ld D Hb Hd HD.
    assert (Hrun : generateBodyString view_render mail w
                   = (view_render (mvd_view d) D (objects w),
                      emit (ViewRender (mvd_view d) D) w)).
    { rewrite (generateBodyString_view view_render mail w d)
        by now rewrite Htotal.
      unfold render_data, properties. rewrite Hd.
      now rewrite (lookup_total_of_lookup _ _ _ HD). }
    split; [exact Hrun|].
    split; intros x Hx; rewrite Hrun; exact Hx.
Qed.

Lemma generateBodyString_resolves_witness :
  generateBodyString render_ok 0 sample_world = (Resolved "Hello", sample_world)
  /\ generateBodyString render_ok 1 sample_world
     = (Resolved "<x>", emit (ViewRender "x" {["a" := VNum 1]}) sample_world)
  /\ fst (generateBodyString render_failing 1 sample_world)
     = Rejected (Thrown "template missing").
Proof.
  split; [|split].
  - exact (proj1 (generateBodyString_resolves render_ok 0 sample_world
                    (sample_mail (BodyString "Hello")) eq_refl)
             "Hello" eq_refl).
  - exact (proj1 (proj2 (generateBodyString_resolves render_ok 1 sample_world
                           (sample_mail (BodyView {| mvd_view := "x";
                                                     mvd_data := Some 1 |}))
                           eq_refl)
                    {| mvd_view := "x"; mvd_data := Some 1 |} 1 {["a" := VNum 1]}
                    eq_refl eq_refl eq_refl)).
  - exact (proj1 (proj2 (proj2 (generateBodyString_resolves render_failing 1
                                  sample_world
                                  (sample_mail (BodyView {| mvd_view := "x";
                                                            mvd_data := Some 1 |}))
                                  eq_refl)
                           {| mvd_view := "x"; mvd_data := Some 1 |} 1
                           {["a" := VNum 1]} eq_refl eq_refl eq_refl))
             (Thrown "template missing") eq_refl).
Defined.

(** ** Drivers and their options *)

(** C4 as stated fails for the local driver: constructed with options
    [{apiKey: "k"}] (directly, or by [boot] from the configuration), its
    [getOptions] answers the empty object. *)
Lemma getOptions_constructor_options_counterexample :
  adapter_getOptions (LocalMailDriver render_ok keyed_options) <> keyed_options
  /\ exists inst,
       getDriver "local" (booted render_ok keyed_options)
         = (Resolved inst, booted render_ok keyed_options)
       /\ inst_adapter inst = LocalMailDriver render_ok keyed_options
       /\ adapter_getOptions (inst_adapter inst) <> keyed_options.
Proof.
  assert (Hne : (∅ : object) <> keyed_options).
  { intros Heq. assert (H : (∅ : object) !! "apiKey" = keyed_options !! "apiKey")
      by now rewrite Heq.
    discriminate H. }
  split; [exact Hne|].
  exists {| inst_id := 0; inst_adapter := LocalMailDriver render_ok keyed_options |}.
  split; [reflexivity|]. split; [reflexivity|]. exact Hne.
Qed.

(** C4 (amended): after [boot], [getDriver] on the name of a configured
    entry that is the first of its name and was not registered before
    returns the instance [boot] constructed for that entry, i.e. the
    entry's constructor applied to the entry's options.  The local driver
    drops its constructor options: its [getOptions] answers the empty
    object whatever the options were. *)
Theorem getDriver_returns_constructed_adapter rt pre d post :
  cfg_drivers (mailConfig (this rt)) = pre ++ d :: post ->
  (forall p, p ∈ pre -> cfg_name p <> cfg_name d) ->
  adapters (this rt) !! cfg_name d = None ->
  (exists inst,
     getDriver (cfg_name d) (snd (boot rt)) = (Resolved inst, snd (boot rt))
     /\ inst_adapter inst = cfg_driver d (cfg_options d)
     /\ inst_id inst = instances (world rt) + length pre
     /\ (forall view_render,
           cfg_driver d = LocalMailDriver view_render ->
           adapter_getOptions (inst_adapter inst) = ∅))
  /\ (forall view_render options,
        adapter_getOptions (LocalMailDriver view_render options) = ∅).
Proof.
  intros Hds Hfirst Hfree. split; [|reflexivity].
  exists {| inst_id := instances (world rt) + length pre;
            inst_adapter := cfg_driver d (cfg_options d) |}.
  split; [|split; [reflexivity|split; [reflexivity|]]].
  - rewrite boot_run. cbn [snd]. unfold getDriver, getAdapter.
    cbn [this adapters]. rewrite Hds.
    now rewrite (registry_after_first pre d post _ _ Hfree Hfirst).
  - intros view_render Hlocal. cbn [inst_adapter]. now rewrite Hlocal.
Qed.

Lemma getDriver_returns_constructed_adapter_witness :
  exists inst,
    getDriver "local" (booted render_ok keyed_options)
      = (Resolved inst, booted render_ok keyed_options)
    /\ inst_adapter inst = LocalMailDriver render_ok keyed_options
    /\ inst_id inst = 0
    /\ adapter_getOptions (inst_adapter inst) = ∅.
Proof.
  destruct (getDriver_returns_constructed_adapter
              (unbooted render_ok keyed_options) []
              (MailConfig_define "local" (LocalMailDriver render_ok)
                 (Some keyed_options))
              [] eq_refl) as [(inst & Hget & Hadapter & Hid & Hopts) _].
  - intros p Hp. inversion Hp.
  - reflexivity.
  - exists inst. split; [exact Hget|]. split; [exact Hadapter|].
    split; [exact Hid|]. exact (Hopts render_ok eq_refl).
Defined.

(** ** Unregistered drivers *)

(** C5: looking up a name that is not in the registry fails with the
    unknown-adapter error, for [getDriver], for [getDefaultDriver] when the
    configured default is unregistered, and for [send], whose promise then
    rejects with that error; with an empty registry (before [boot]) every
    [send] is rejected in this way. *)
Theorem unregistered_driver_fails rt :
  (forall name,
     adapters (this rt) !! name = None ->
     getDriver name rt = (Rejected (AdapterNotFound name), rt))
  /\ (adapters (this rt) !! cfg_default (mailConfig (this rt)) = None ->
      getDefaultDriver rt
        = (Rejected (AdapterNotFound (cfg_default (mailConfig (this rt)))), rt))
  /\ (forall mail driver,
        adapters (this rt) !! driver_name driver rt = None ->
        fst (send mail driver rt)
          = Rejected (AdapterNotFound (driver_name driver rt)))
  /\ (adapters (this rt) = ∅ ->
      forall mail driver,
        fst (send mail driver rt)
          = Rejected (AdapterNotFound (driver_name driver rt))).
Proof.
  assert (Hsend : forall mail driver,
            adapters (this rt) !! driver_name driver rt = None ->
            fst (send mail driver rt)
              = Rejected (AdapterNotFound (driver_name driver rt))).
  { intros mail driver Hnone. rewrite send_run. cbn zeta. now rewrite Hnone. }
  split; [|split; [|split]].
  - intros name Hnone. unfold getDriver, getAdapter. now rewrite Hnone.
  - intros Hnone. unfold getDefaultDriver, bind, gets, getAdapter.
    now rewrite Hnone.
  - exact Hsend.
  - intros Hempty mail driver. apply Hsend. rewrite Hempty. apply lookup_empty.
Qed.

Lemma unregistered_driver_fails_witness :
  getDriver "smtp" (booted render_ok ∅)
    = (Rejected (AdapterNotFound "smtp"), booted render_ok ∅)
  /\ getDefaultDriver (unbooted render_ok ∅)
     = (Rejected (AdapterNotFound "local"), unbooted render_ok ∅)
  /\ fst (send 0 (Some "smtp") (booted render_ok ∅))
     = Rejected (AdapterNotFound "smtp")
  /\ fst (send 0 None (unbooted render_ok ∅)) = Rejected (AdapterNotFound "local").
Proof.
  split; [|split; [|split]].
  - exact (proj1 (unregistered_driver_fails (booted render_ok ∅)) "smtp" eq_refl).
  - exact (proj1 (proj2 (unregistered_driver_fails (unbooted render_ok ∅))) eq_refl).
  - exact (proj1 (proj2 (proj2 (unregistered_driver_fails (booted render_ok ∅))))
             0 (Some "smtp") eq_refl).
  - exact (proj2 (proj2 (proj2 (unregistered_driver_fails (unbooted render_ok ∅))))
             eq_refl 0 None).
Defined.

(** ** Booting twice *)

(** Every instance in the registry after a run of registrations was there
    before or was constructed during the run. *)
Lemma registry_after_origin ds : forall n (reg : gmap string AdapterInstance) k a,
  registry_after ds n reg !! k = Some a ->
  reg !! k = Some a \/ (n <= inst_id a < n + length ds).
Proof.
  induction ds as [|d rest IH]; intros n reg k a Hk; cbn in Hk.
  - now left.
  - apply IH in Hk as [Hk|Hk]; cbn [length].
    + unfold register_entry in Hk. destruct (reg !! cfg_name d) eqn:Hd.
      * now left.
      * destruct (decide (cfg_name d = k)) as [<-|Hne].
        -- rewrite lookup_insert_eq in Hk. injection Hk as <-. right. cbn. lia.
        -- rewrite lookup_insert_ne in Hk by exact Hne. now left.
    + right. lia.
Qed.

(** C6: [boot] always completes, and a second [boot] leaves the registry
    exactly as the first one left it: every configured name is registered,
    the registered names are the earlier ones and the configured ones, and
    each name still holds the instance of its first registration; none of
    the instances the second [boot] constructs is registered. *)
Theorem boot_twice_keeps_first_registration rt :
  fst (boot rt) = Resolved tt
  /\ fst (boot (snd (boot rt))) = Resolved tt
  /\ adapters (this (snd (boot (snd (boot rt))))) = adapters (this (snd (boot rt)))
  /\ (forall d,
        d ∈ cfg_drivers (mailConfig (this rt)) ->
        is_Some (adapters (this (snd (boot rt))) !! cfg_name d))
  /\ dom (adapters (this (snd (boot rt))))
     = dom (adapters (this rt))
       ∪ list_to_set (cfg_name <$> cfg_drivers (mailConfig (this rt)))
  /\ (forall name inst,
        adapters (this rt) !! name = Some inst ->
        adapters (this (snd (boot (snd (boot rt))))) !! name = Some inst)
  /\ (forall name inst,
        adapters (this (snd (boot (snd (boot rt))))) !! name = Some inst ->
        adapters (this rt) !! name = Some inst
        \/ inst_id inst < instances (world (snd (boot rt)))).
Proof.
  rewrite (boot_run (snd (boot rt))). rewrite (boot_run rt).
  cbn [fst snd this world mailConfig localesConfig adapters instances].
  set (ds := cfg_drivers (mailConfig (this rt))).
  set (reg1 := registry_after ds (instances (world rt)) (adapters (this rt))).
  assert (Hreg : forall d, d ∈ ds -> is_Some (reg1 !! cfg_name d)).
  { intros d Hd. now apply registry_after_registered. }
  assert (Hsame : registry_after ds (length ds + instances (world rt)) reg1 = reg1).
  { now apply registry_after_taken. }
  rewrite Hsame.
  split; [reflexivity|]. split; [reflexivity|]. split; [reflexivity|].
  split; [exact Hreg|].
  split; [apply registry_after_dom|].
  split.
  - intros name inst Hin. now apply registry_after_keeps.
  - intros name inst Hin.
    apply registry_after_origin in Hin as [Hin|Hin]; [now left|right]. lia.
Qed.

Lemma boot_twice_keeps_first_registration_witness :
  adapters (this (snd (boot (booted render_ok keyed_options))))
    = adapters (this (booted render_ok keyed_options))
  /\ is_Some (adapters (this (booted render_ok keyed_options)) !! "local")
  /\ instances (world (snd (boot (booted render_ok keyed_options)))) = 2.
Proof.
  destruct (boot_twice_keeps_first_registration (unbooted render_ok keyed_options))
    as (_ & _ & Hsame & Hreg & _).
  split; [exact Hsame|]. split; [|reflexivity].
  apply (Hreg (MailConfig_define "local" (LocalMailDriver render_ok)
                 (Some keyed_options))).
  apply list_elem_of_here.
Defined.

(** ** The local driver *)

(** C7: for a mail with a plain string body, [LocalMailDriver.send]
    resolves and hands the logger's info path, once, the message [Email]
    with the JSON text of the record made of the mail's to, from and
    subject, that very string as body, and the attachments; the renderer is
    not called and nothing else is written.  So does [MailService.send]
    through a registered local driver. *)
Theorem local_driver_logs_string_body view_render mail w m s :
  mails w !! mail = Some m ->
  mail_body m = BodyString s ->
  LocalMailDriver_send view_render mail w
    = (Resolved tt,
       emit (LogInfo "Email"
               (JSON_stringify
                  (JObj [("to", recipients_json (mail_to m));
                         ("from", JStr (mail_from m));
                         ("subject", JStr (mail_subject m));
                         ("body", JStr s);
                         ("attachments", JArr (mail_attachments m))]))) w)
  /\ (forall rt driver inst options,
        world rt = w ->
        adapters (this rt) !! driver_name driver rt = Some inst ->
        inst_adapter inst = LocalMailDriver view_render options ->
        send mail driver rt
          = (Resolved tt,
             {| this := this rt;
                world := emit (LogInfo "Email"
                                 (JSON_stringify (email_record m s))) w |})).
Proof.
  intros Hm Hb.
  assert (Htotal : mails w !!! mail = m) by now apply lookup_total_of_lookup.
  assert (Hlocal : LocalMailDriver_send view_render mail w
                   = (Resolved tt,
                      emit (LogInfo "Email" (JSON_stringify (email_record m s))) w)).
  { rewrite LocalMailDriver_send_run.
    rewrite (generateBodyString_string view_render mail w s)
      by now rewrite Htotal.
    now rewrite Htotal. }
  split; [exact Hlocal|].
  intros rt driver inst options Hw Hreg Hinst.
  rewrite (send_registered _ _ _ _ Hreg), Hinst. cbn [adapter_send LocalMailDriver].
  rewrite addLocalesData_string with (s := s) by now rewrite Hw, Htotal.
  cbn [snd]. rewrite Hw, Hlocal. reflexivity.
Qed.

Lemma local_driver_logs_string_body_witness :
  send 0 None (booted render_ok ∅)
    = (Resolved tt,
       {| this := this (booted render_ok ∅);
          world :=
            emit (LogInfo "Email"
                    ("{" +:+ quote_string "to" +:+ ":" +:+ quote_string "a@b.com"
                     +:+ "," +:+ quote_string "from" +:+ ":" +:+ quote_string "c@d.com"
                     +:+ "," +:+ quote_string "subject" +:+ ":" +:+ quote_string "Hi"
                     +:+ "," +:+ quote_string "body" +:+ ":" +:+ quote_string "Hello"
                     +:+ "," +:+ quote_string "attachments" +:+ ":[]}"))
                 (world (booted render_ok ∅)) |}).
Proof.
  exact (proj2 (local_driver_logs_string_body render_ok 0
                  (world (booted render_ok ∅))
                  (sample_mail (BodyString "Hello")) "Hello" eq_refl eq_refl)
           (booted render_ok ∅) None
           {| inst_id := 0; inst_adapter := LocalMailDriver render_ok ∅ |} ∅
           eq_refl eq_refl eq_refl).
Defined.

(** ** What [send] writes *)

Lemma send_this mail driver rt : this (snd (send mail driver rt)) = this rt.
Proof.
  rewrite send_run. cbn zeta.
  destruct (adapters (this rt) !! driver_name driver rt) as [a|].
  - destruct (adapter_send (inst_adapter a) mail _) as [[u|e] w2]; reflexivity.
  - reflexivity.
Qed.

Lemma send_stores_readonly mail driver rt :
  registry_readonly rt ->
  objects (world (snd (send mail driver rt)))
    = objects (world (snd (addLocalesData mail rt)))
  /\ mails (world (snd (send mail driver rt)))
     = mails (world (snd (addLocalesData mail rt))).
Proof.
  intros Hro. rewrite send_run. cbn zeta.
  destruct (adapters (this rt) !! driver_name driver rt) as [a|] eqn:Hreg.
  - destruct (Hro _ _ Hreg mail (world (snd (addLocalesData mail rt)))) as [Ho Hm].
    destruct (adapter_send (inst_adapter a) mail _) as [[u|e] w2];
      cbn in *; auto.
  - cbn. auto.
Qed.

Lemma addLocalesData_objects_extend mail rt :
  exists new,
    objects (world (snd (addLocalesData mail rt))) = objects (world rt) ++ new.
Proof.
  destruct (mail_body (mails (world rt) !!! mail)) as [s|d] eqn:Hb.
  - exists []. rewrite (addLocalesData_string _ _ _ Hb). cbn. now rewrite app_nil_r.
  - eexists. rewrite (addLocalesData_view _ _ _ Hb). cbn.
    rewrite <- app_assoc. reflexivity.
Qed.

Lemma sample_registry render options :
  adapters (this (booted render options))
    = {["local" := {| inst_id := 0;
                      inst_adapter := LocalMailDriver render options |}]}.
Proof.
  unfold booted. rewrite boot_run. cbn [snd this adapters].
  cbn. unfold register_entry. cbn. now rewrite lookup_empty.
Qed.

Lemma sample_registry_readonly render options :
  registry_readonly (booted render options).
Proof.
  intros name inst Hreg. rewrite sample_registry in Hreg.
  apply lookup_singleton_Some in Hreg as [_ <-].
  apply LocalMailDriver_readonly.
Qed.

(** C8: [send] leaves the service object as it was (same configuration,
    same registry, same locale-context reference), whatever the adapter
    does and however the call ends.  The locale merge writes no object that
    existed before: the locales object it puts into the template data is a
    newly allocated one holding the locale context plus the date, so the
    locale context reads the same afterwards; with adapters that leave the
    stores alone this also holds after the whole call. *)
Theorem send_leaves_service_state mail driver rt :
  (mailConfig (this (snd (send mail driver rt))) = mailConfig (this rt)
   /\ adapters (this (snd (send mail driver rt))) = adapters (this rt)
   /\ localesConfig (this (snd (send mail driver rt))) = localesConfig (this rt))
  /\ (forall l o,
        objects (world rt) !! l = Some o ->
        objects (world (snd (addLocalesData mail rt))) !! l = Some o)
  /\ (registry_readonly rt ->
      forall l o,
        objects (world rt) !! l = Some o ->
        objects (world (snd (send mail driver rt))) !! l = Some o)
  /\ (forall m d,
        mails (world rt) !! mail = Some m ->
        mail_body m = BodyView d ->
        exists ld' ll,
          mails (world (snd (addLocalesData mail rt))) !! mail
            = Some (with_body (BodyView {| mvd_view := mvd_view d;
                                           mvd_data := Some ld' |}) m)
          /\ properties (world (snd (addLocalesData mail rt))) ld' !! "locales"
             = Some (VRef ll)
          /\ objects (world rt) !! ll = None
          /\ objects (world (snd (addLocalesData mail rt))) !! ll
             = Some (<["date" := VDate (clock (world rt))]>
                       (properties (world rt) (localesConfig (this rt))))
          /\ (is_Some (objects (world rt) !! localesConfig (this rt)) ->
              ll <> localesConfig (this rt))).
Proof.
  assert (Hmerge : forall l o,
            objects (world rt) !! l = Some o ->
            objects (world (snd (addLocalesData mail rt))) !! l = Some o).
  { intros l o Hl. destruct (addLocalesData_objects_extend mail rt) as [new ->].
    now apply lookup_app_l_Some. }
  split; [now rewrite send_this|].
  split; [exact Hmerge|].
  split.
  - intros Hro l o Hl.
    destruct (send_stores_readonly mail driver rt Hro) as [-> _]. now apply Hmerge.
  - intros m d Hm Hb.
    destruct (merged_world mail rt m d Hm Hb) as (Hobjs & Hmails & _).
    cbn zeta in Hobjs, Hmails.
    set (w1 := world (snd (addLocalesData mail rt))) in *.
    set (n := length (objects (world rt))) in *.
    exists (S n), n.
    split; [rewrite Hmails; apply list_lookup_insert_eq;
            now apply lookup_lt_Some in Hm|].
    split.
    { unfold properties. rewrite Hobjs. subst n.
      rewrite (lookup_total_of_lookup _ _ _ (lookup_allocated_second _ _ _)).
      apply lookup_insert_eq. }
    split; [apply lookup_ge_None_2; subst n; lia|].
    split; [rewrite Hobjs; apply lookup_allocated_first|].
    intros [o Ho] Heq. apply lookup_lt_Some in Ho. subst n. lia.
Qed.

Lemma send_leaves_service_state_witness :
  adapters (this (snd (send 1 None (booted render_ok ∅))))
    = adapters (this (booted render_ok ∅))
  /\ objects (world (snd (send 1 None (booted render_ok ∅)))) !! 0
     = Some {["app" := VStr "demo"]}
  /\ exists ld' ll,
       properties (world (snd (addLocalesData 1 (booted render_ok ∅)))) ld'
         !! "locales" = Some (VRef ll)
       /\ ll <> 0.
Proof.
  destruct (send_leaves_service_state 1 None (booted render_ok ∅))
    as ((_ & Hreg & _) & _ & Hkeep & Hfresh).
  split; [exact Hreg|].
  split; [exact (Hkeep (sample_registry_readonly render_ok ∅) 0 _ eq_refl)|].
  destruct (Hfresh (sample_mail (BodyView {| mvd_view := "x"; mvd_data := Some 1 |}))
              {| mvd_view := "x"; mvd_data := Some 1 |} eq_refl eq_refl)
    as (ld' & ll & _ & Hloc & _ & _ & Hne).
  exists ld', ll. split; [exact Hloc|].
  apply Hne. exists {["app" := VStr "demo"]}. reflexivity.
Defined.

(** ** Template bodies without data *)

(** C9: for a template-shaped mail without a data field and a registered
    driver, [MailService.send] runs the adapter on a world in which the
    mail's body refers to a newly allocated data object whose only key is
    [locales] (the fallback for the missing data contributes no entry);
    [generateBodyString] there renders the view with exactly that object,
    which is what the renderer receives under the local driver, and with
    adapters that leave the stores alone this is the mail's body after the
    call.  On the descriptor without data [generateBodyString] renders
    with the empty object. *)
Theorem send_template_without_data mail driver rt m d inst :
  mails (world rt) !! mail = Some m ->
  mail_body m = BodyView d ->
  mvd_data d = None ->
  adapters (this rt) !! driver_name driver rt = Some inst ->
  exists w1 ld' ll D',
    send mail driver rt
      = settle (this rt) (adapter_send (inst_adapter inst) mail w1)
    /\ mails w1 !! mail
       = Some (with_body (BodyView {| mvd_view := mvd_view d;
                                      mvd_data := Some ld' |}) m)
    /\ objects w1 !! ld' = Some D'
    /\ D' = {["locales" := VRef ll]}
    /\ dom D' = {["locales"]}
    /\ objects w1 !! ll
       = Some (<["date" := VDate (clock (world rt))]>
                 (properties (world rt) (localesConfig (this rt))))
    /\ objects (world rt) !! ld' = None
    /\ objects (world rt) !! ll = None
    /\ (forall view_render,
          generateBodyString view_render mail w1
            = (view_render (mvd_view d) D' (objects w1),
               emit (ViewRender (mvd_view d) D') w1))
    /\ (forall view_render,
          adapter_send (inst_adapter inst) = LocalMailDriver_send view_render ->
          exists rest,
            trace (world (snd (send mail driver rt)))
            = trace (world rt) ++ ViewRender (mvd_view d) D' :: rest)
    /\ (registry_readonly rt ->
        mails (world (snd (send mail driver rt))) !! mail
          = Some (with_body (BodyView {| mvd_view := mvd_view d;
                                         mvd_data := Some ld' |}) m)
        /\ objects (world (snd (send mail driver rt))) !! ld' = Some D')
    /\ (forall view_render,
          generateBodyString view_render mail (world rt)
            = (view_render (mvd_view d) ∅ (objects (world rt)),
               emit (ViewRender (mvd_view d) ∅) (world rt))).
Proof.
  intros Hm Hb Hd Hreg.
  destruct (merged_world mail rt m d Hm Hb) as (Hobjs & Hmails & Htr & _).
  cbn zeta in Hobjs, Hmails. rewrite Hd in Hobjs. rewrite insert_empty in Hobjs.
  set (w1 := world (snd (addLocalesData mail rt))) in *.
  assert (Hmail : mails w1 !! mail
                  = Some (with_body
                            (BodyView {| mvd_view := mvd_view d;
                                         mvd_data :=
                                           Some (S (length (objects (world rt)))) |})
                            m)).
  { rewrite Hmails. apply list_lookup_insert_eq. now apply lookup_lt_Some in Hm. }
  assert (Hdata : objects w1 !! S (length (objects (world rt)))
                  = Some {["locales" := VRef (length (objects (world rt)))]}).
  { rewrite Hobjs. apply lookup_allocated_second. }
  assert (Hgen : forall view_render,
            generateBodyString view_render mail w1
            = (view_render (mvd_view d)
                 {["locales" := VRef (length (objects (world rt)))]} (objects w1),
               emit (ViewRender (mvd_view d)
                       {["locales" := VRef (length (objects (world rt)))]}) w1)).
  { intros view_render.
    rewrite (generateBodyString_view view_render mail w1
               {| mvd_view := mvd_view d;
                  mvd_data := Some (S (length (objects (world rt)))) |})
      by now rewrite (lookup_total_of_lookup _ _ _ Hmail).
    unfold render_data, properties. cbn [mvd_data mvd_view].
    now rewrite (lookup_total_of_lookup _ _ _ Hdata). }
  exists w1, (S (length (objects (world rt)))), (length (objects (world rt))),
    {["locales" := VRef (length (objects (world rt)))]}.
  split; [now apply send_registered|].
  split; [exact Hmail|]. split; [exact Hdata|].
  split; [reflexivity|]. split; [apply dom_singleton_L|].
  split; [rewrite Hobjs; apply lookup_allocated_first|].
  split; [apply lookup_ge_None_2; lia|].
  split; [apply lookup_ge_None_2; lia|].
  split; [exact Hgen|].
  split.
  { intros view_render Hlocal.
    rewrite (send_registered _ _ _ _ Hreg). fold w1. rewrite Hlocal.
    rewrite LocalMailDriver_send_run, Hgen.
    destruct (view_render _ _ _) as [body|e];
      cbn [settle snd world emit trace]; rewrite Htr, <- !app_assoc; eauto. }
  split.
  { intros Hro.
    destruct (send_stores_readonly mail driver rt Hro) as [-> ->].
    fold w1. auto. }
  intros view_render.
  rewrite (generateBodyString_view view_render mail (world rt) d)
    by now rewrite (lookup_total_of_lookup _ _ _ Hm).
  unfold render_data. now rewrite Hd.
Qed.

Lemma send_template_without_data_witness :
  exists w1 ld' ll,
    send 2 None (booted render_ok ∅)
      = settle (this (booted render_ok ∅)) (LocalMailDriver_send render_ok 2 w1)
    /\ objects w1 !! ld' = Some {["locales" := VRef ll]}
    /\ objects (world (snd (send 2 None (booted render_ok ∅)))) !! ld'
       = Some {["locales" := VRef ll]}
    /\ exists rest,
         trace (world (snd (send 2 None (booted render_ok ∅))))
         = ViewRender "x" {["locales" := VRef ll]} :: rest.
Proof.
  destruct (send_template_without_data 2 None (booted render_ok ∅)
              (sample_mail (BodyView {| mvd_view := "x"; mvd_data := None |}))
              {| mvd_view := "x"; mvd_data := None |}
              {| inst_id := 0; inst_adapter := LocalMailDriver render_ok ∅ |}
              eq_refl eq_refl eq_refl eq_refl)
    as (w1 & ld' & ll & D' & Hsend & _ & Hdata & HD' & _ & _ & _ & _ & _
        & Htrace & Hafter & _).
  rewrite HD' in *.
  exists w1, ld', ll.
  split; [exact Hsend|]. split; [exact Hdata|].
  split; [exact (proj2 (Hafter (sample_registry_readonly render_ok ∅)))|].
  exact (Htrace render_ok eq_refl).
Defined.

(** ** The caller's mail after [send] *)

(** C10: [send] replaces the body of the caller's template-shaped mail in
    place: whatever the outcome (also when the driver is unknown), and
    with adapters that leave the stores alone, the mail store afterwards
    is the one before with this mail's body set to the merged descriptor:
    same view, and a newly allocated data object that holds the entries of
    the original data with [locales] set to the injected locales object
    (so a [locales] entry of the original data is overwritten there, while
    the original data object is not written); a registered adapter ran on
    exactly this replaced body.  A mail with a plain string body, and both
    stores with it, are left as they were. *)
Theorem send_replaces_body_in_place mail driver rt m :
  mails (world rt) !! mail = Some m ->
  registry_readonly rt ->
  (forall d,
     mail_body m = BodyView d ->
     exists ld' ll,
       mails (world (snd (send mail driver rt)))
         = <[mail := with_body (BodyView {| mvd_view := mvd_view d;
                                            mvd_data := Some ld' |}) m]>
             (mails (world rt))
       /\ mail_body (mails (world (snd (send mail driver rt))) !!! mail)
          = BodyView {| mvd_view := mvd_view d; mvd_data := Some ld' |}
       /\ properties (world (snd (send mail driver rt))) ld' !! "locales"
          = Some (VRef ll)
       /\ properties (world (snd (send mail driver rt))) ll
          = <["date" := VDate (clock (world rt))]>
              (properties (world rt) (localesConfig (this rt)))
       /\ (forall ld D old,
             mvd_data d = Some ld ->
             objects (world rt) !! ld = Some D ->
             D !! "locales" = Some old ->
             ld' <> ld
             /\ objects (world (snd (send mail driver rt))) !! ld = Some D)
       /\ (forall ld D,
             mvd_data d = Some ld ->
             objects (world rt) !! ld = Some D ->
             objects (world (snd (send mail driver rt))) !! ld'
               = Some (<["locales" := VRef ll]> D)
             /\ (forall k,
                   k <> "locales" ->
                   properties (world (snd (send mail driver rt))) ld' !! k
                     = D !! k)
             /\ objects (world (snd (send mail driver rt))) !! ld = Some D)
       /\ (mvd_data d = None ->
           objects (world (snd (send mail driver rt))) !! ld'
             = Some {["locales" := VRef ll]})
       /\ objects (world rt) !! ld' = None
       /\ objects (world rt) !! ll = None
       /\ (forall inst,
             adapters (this rt) !! driver_name driver rt = Some inst ->
             exists w1,
               send mail driver rt
                 = settle (this rt) (adapter_send (inst_adapter inst) mail w1)
               /\ mails w1 = mails (world (snd (send mail driver rt)))
               /\ objects w1 = objects (world (snd (send mail driver rt)))))
  /\ (forall s,
        mail_body m = BodyString s ->
        mails (world (snd (send mail driver rt))) = mails (world rt)
        /\ objects (world (snd (send mail driver rt))) = objects (world rt)).
Proof.
  intros Hm Hro.
  destruct (send_stores_readonly mail driver rt Hro) as [Hobjs Hmails].
  split.
  - intros d Hb.
    destruct (merged_world mail rt m d Hm Hb) as (Hobjs1 & Hmails1 & _).
    cbn zeta in Hobjs1, Hmails1.
    rewrite <- Hobjs in Hobjs1. rewrite <- Hmails in Hmails1.
    set (w2 := world (snd (send mail driver rt))) in *.
    exists (S (length (objects (world rt)))), (length (objects (world rt))).
    split; [exact Hmails1|].
    split.
    { rewrite Hmails1. rewrite list_lookup_total_insert_eq; [reflexivity|].
      now apply lookup_lt_Some in Hm. }
    split.
    { unfold properties. rewrite Hobjs1.
      rewrite (lookup_total_of_lookup _ _ _ (lookup_allocated_second _ _ _)).
      apply lookup_insert_eq. }
    split.
    { unfold properties. rewrite Hobjs1.
      now rewrite (lookup_total_of_lookup _ _ _ (lookup_allocated_first _ _ _)). }
    split.
    { intros ld D old Hd HD Hold. split.
      + apply lookup_lt_Some in HD. lia.
      + rewrite Hobjs1. now apply lookup_app_l_Some. }
    split.
    { intros ld D Hd HD.
      assert (Hnew : objects w2 !! S (length (objects (world rt)))
                     = Some (<["locales" := VRef (length (objects (world rt)))]> D)).
      { rewrite Hobjs1, Hd.
        rewrite (lookup_total_of_lookup _ ld D) by (now apply lookup_app_l_Some).
        apply lookup_allocated_second. }
      split; [exact Hnew|]. split.
      + intros k Hk. unfold properties.
        rewrite (lookup_total_of_lookup _ _ _ Hnew). now rewrite lookup_insert_ne.
      + rewrite Hobjs1. now apply lookup_app_l_Some. }
    split.
    { intros Hd. rewrite Hobjs1, Hd, insert_empty. apply lookup_allocated_second. }
    split; [apply lookup_ge_None_2; lia|].
    split; [apply lookup_ge_None_2; lia|].
    intros inst Hreg. exists (world (snd (addLocalesData mail rt))).
    split; [now apply send_registered|].
    split; [symmetry; exact Hmails|symmetry; exact Hobjs].
  - intros s Hb.
    rewrite Hobjs, Hmails.
    rewrite addLocalesData_string with (s := s);
      [auto | now rewrite (lookup_total_of_lookup _ _ _ Hm)].
Qed.

Lemma send_replaces_body_in_place_witness :
  (exists ld' ll,
     mail_body (mails (world (snd (send 3 (Some "smtp") (booted render_ok ∅)))) !!! 3)
       = BodyView {| mvd_view := "x"; mvd_data := Some ld' |}
     /\ properties (world (snd (send 3 (Some "smtp") (booted render_ok ∅)))) ld'
          !! "locales" = Some (VRef ll)
     /\ objects (world (snd (send 3 (Some "smtp") (booted render_ok ∅)))) !! 2
        = Some {["locales" := VNum 1]})
  /\ (exists ld' ll w1,
        send 1 None (booted render_ok ∅)
          = settle (this (booted render_ok ∅)) (LocalMailDriver_send render_ok 1 w1)
        /\ mail_body (mails w1 !!! 1)
           = BodyView {| mvd_view := "x"; mvd_data := Some ld' |}
        /\ objects w1 !! ld' = Some (<["locales" := VRef ll]> {["a" := VNum 1]})
        /\ properties (world (snd (send 1 None (booted render_ok ∅)))) ld' !! "a"
           = Some (VNum 1))
  /\ mails (world (snd (send 0 None (booted render_ok ∅))))
     = mails (world (booted render_ok ∅)).
Proof.
  split; [|split].
  - destruct (send_replaces_body_in_place 3 (Some "smtp") (booted render_ok ∅)
                (sample_mail (BodyView {| mvd_view := "x"; mvd_data := Some 2 |}))
                eq_refl (sample_registry_readonly render_ok ∅)) as [Hview _].
    destruct (Hview {| mvd_view := "x"; mvd_data := Some 2 |} eq_refl)
      as (ld' & ll & _ & Hbody & Hloc & _ & Hold & _).
    exists ld', ll. split; [exact Hbody|]. split; [exact Hloc|].
    exact (proj2 (Hold 2 {["locales" := VNum 1]} (VNum 1) eq_refl eq_refl eq_refl)).
  - destruct (send_replaces_body_in_place 1 None (booted render_ok ∅)
                (sample_mail (BodyView {| mvd_view := "x"; mvd_data := Some 1 |}))
                eq_refl (sample_registry_readonly render_ok ∅)) as [Hview _].
    destruct (Hview {| mvd_view := "x"; mvd_data := Some 1 |} eq_refl)
      as (ld' & ll & _ & Hbody & _ & _ & _ & Hkeys & _ & _ & _ & Hran).
    destruct (Hkeys 1 {["a" := VNum 1]} eq_refl eq_refl) as (Hnew & Hkept & _).
    destruct (Hran {| inst_id := 0; inst_adapter := LocalMailDriver render_ok ∅ |}
                eq_refl) as (w1 & Hsend & Hmails1 & Hobjs1).
    exists ld', ll, w1.
    split; [exact Hsend|].
    split; [rewrite Hmails1; exact Hbody|].
    split; [rewrite Hobjs1; exact Hnew|].
    rewrite Hkept; [reflexivity|discriminate].
  - destruct (send_replaces_body_in_place 0 None (booted render_ok ∅)
                (sample_mail (BodyString "Hello"))
                eq_refl (sample_registry_readonly render_ok ∅)) as [_ Hstring].
    exact (proj1 (Hstring "Hello" eq_refl)).
Defined.

(** * Further properties of the service and the local driver *)

(** ** [boot] *)

(** An instance that a run of registrations put under a free name was
    constructed from an entry of that name, and is numbered by the position
    of that entry. *)
Lemma registry_after_new ds : forall n (reg : gmap string AdapterInstance) k a,
  reg !! k = None ->
  registry_after ds n reg !! k = Some a ->
  exists i d,
    ds !! i = Some d /\ cfg_name d = k
    /\ a = {| inst_id := n + i; inst_adapter := cfg_driver d (cfg_options d) |}.
Proof.
  induction ds as [|d0 rest IH]; intros n reg k a Hfree Hk; cbn in Hk.
  - congruence.
  - destruct (decide (cfg_name d0 = k)) as [Heq|Hne].
    + exists 0, d0. split; [reflexivity|]. split; [exact Heq|].
      assert (Hfirst : register_entry d0 n reg !! k
                       = Some {| inst_id := n;
                                 inst_adapter := cfg_driver d0 (cfg_options d0) |}).
      { unfold register_entry. rewrite Heq, Hfree. apply lookup_insert_eq. }
      rewrite (registry_after_keeps rest (S n) _ _ _ Hfirst) in Hk.
      rewrite Nat.add_0_r. congruence.
    + assert (Hfree' : register_entry d0 n reg !! k = None).
      { unfold register_entry. destruct (reg !! cfg_name d0); [exact Hfree|].
        now rewrite lookup_insert_ne. }
      destruct (IH (S n) _ k a Hfree' Hk) as (i & d & Hi & Hd & Ha).
      exists (S i), d. split; [exact Hi|]. split; [exact Hd|].
      rewrite Ha. f_equal. lia.
Qed.

(** The first entry of a given name in a list of entries. *)
Lemma first_entry_of_name (ds : list MailAdapterConfigItem) name :
  name ∈ cfg_name <$> ds ->
  exists pre d post,
    ds = pre ++ d :: post /\ cfg_name d = name
    /\ forall p, p ∈ pre -> cfg_name p <> name.
Proof.
  induction ds as [|d0 rest IH]; intros Hin; cbn in Hin.
  - inversion Hin.
  - destruct (decide (cfg_name d0 = name)) as [Heq|Hne].
    + exists [], d0, rest. split; [reflexivity|]. split; [exact Heq|].
      intros p Hp. inversion Hp.
    + apply elem_of_cons in Hin as [Hin|Hin]; [congruence|].
      destruct (IH Hin) as (pre & d & post & -> & Hd & Hpre).
      exists (d0 :: pre), d, post. split; [reflexivity|]. split; [exact Hd|].
      intros p Hp. apply elem_of_cons in Hp as [->|Hp]; [exact Hne|now apply Hpre].
Qed.

Lemma register_entry_size d n (reg : gmap string AdapterInstance) :
  size (register_entry d n reg) <= S (size reg).
Proof.
  unfold register_entry. destruct (reg !! cfg_name d) eqn:Hd; [lia|].
  rewrite map_size_insert_None by exact Hd. lia.
Qed.

Lemma registry_after_size ds : forall n (reg : gmap string AdapterInstance),
  size (registry_after ds n reg) <= size reg + length ds.
Proof.
  induction ds as [|d rest IH]; intros n reg; cbn; [lia|].
  specialize (IH (S n) (register_entry d n reg)).
  pose proof (register_entry_size d n reg). lia.
Qed.

(** X1: [boot] constructs one adapter for every configured entry, also
    for an entry whose name is already taken (that adapter is dropped), so
    the number of registered adapters grows by at most the number of
    entries; it writes nothing else: the configuration, the locale-context
    reference, the objects, the mails, the clock and the log are as
    before. *)
Theorem boot_constructs_every_entry rt :
  instances (world (snd (boot rt)))
    = length (cfg_drivers (mailConfig (this rt))) + instances (world rt)
  /\ size (adapters (this (snd (boot rt))))
     <= size (adapters (this rt)) + length (cfg_drivers (mailConfig (this rt)))
  /\ mailConfig (this (snd (boot rt))) = mailConfig (this rt)
  /\ localesConfig (this (snd (boot rt))) = localesConfig (this rt)
  /\ objects (world (snd (boot rt))) = objects (world rt)
  /\ mails (world (snd (boot rt))) = mails (world rt)
  /\ clock (world (snd (boot rt))) = clock (world rt)
  /\ trace (world (snd (boot rt))) = trace (world rt).
Proof.
  rewrite boot_run. cbn [snd this world mailConfig localesConfig adapters
    instances objects mails clock trace].
  split; [reflexivity|]. split; [apply registry_after_size|].
  repeat split.
Qed.

(** X2: after [boot] on a service where [name] was not registered,
    [getDriver name] succeeds exactly when some configured entry has that
    name: it then returns the adapter constructed from the first entry of
    that name (numbered by the entry's position), and otherwise fails with
    the unknown-adapter error; in both cases the lookup changes nothing. *)
Theorem boot_registers_exactly_configured_names rt name :
  adapters (this rt) !! name = None ->
  (name ∈ cfg_name <$> cfg_drivers (mailConfig (this rt)) ->
   exists pre d post,
     cfg_drivers (mailConfig (this rt)) = pre ++ d :: post
     /\ cfg_name d = name
     /\ (forall p, p ∈ pre -> cfg_name p <> name)
     /\ getDriver name (snd (boot rt))
        = (Resolved {| inst_id := instances (world rt) + length pre;
                       inst_adapter := cfg_driver d (cfg_options d) |},
           snd (boot rt)))
  /\ (name ∉ cfg_name <$> cfg_drivers (mailConfig (this rt)) ->
      getDriver name (snd (boot rt))
        = (Rejected (AdapterNotFound name), snd (boot rt))).
Proof.
  intros Hfree. split.
  - intros Hin.
    destruct (first_entry_of_name _ _ Hin) as (pre & d & post & Hds & Hd & Hpre).
    exists pre, d, post. split; [exact Hds|]. split; [exact Hd|].
    split; [exact Hpre|].
    unfold getDriver, getAdapter. rewrite boot_run. cbn [snd this adapters].
    rewrite Hds. rewrite <- Hd in *.
    now rewrite (registry_after_first pre d post _ _ Hfree Hpre).
  - intros Hout.
    unfold getDriver, getAdapter. rewrite boot_run. cbn [snd this adapters].
    assert (Hnone : registry_after (cfg_drivers (mailConfig (this rt)))
                      (instances (world rt)) (adapters (this rt)) !! name = None).
    { apply not_elem_of_dom. rewrite registry_after_dom.
      apply not_elem_of_union. split.
      - now apply not_elem_of_dom.
      - now rewrite elem_of_list_to_set. }
    now rewrite Hnone.
Qed.

Lemma boot_registers_exactly_configured_names_witness :
  getDriver "local" (snd (boot duplicate_unbooted))
    = (Resolved {| inst_id := 0; inst_adapter := LocalMailDriver render_ok ∅ |},
       snd (boot duplicate_unbooted))
  /\ getDriver "smtp" (snd (boot duplicate_unbooted))
     = (Rejected (AdapterNotFound "smtp"), snd (boot duplicate_unbooted)).
Proof.
  split.
  - destruct (proj1 (boot_registers_exactly_configured_names duplicate_unbooted
                       "local" eq_refl))
      as (pre & d & post & Hds & Hd & Hpre & Hget).
    { apply list_elem_of_here. }
    destruct pre as [|p pre].
    + injection Hds as <- _. exact Hget.
    + injection Hds as <- _. exfalso. apply (Hpre _ (list_elem_of_here _ _)).
      reflexivity.
  - apply (proj2 (boot_registers_exactly_configured_names duplicate_unbooted
                    "smtp" eq_refl)).
    intros Hin. cbn in Hin. repeat (apply elem_of_cons in Hin as [Hin|Hin];
      [discriminate Hin|]). inversion Hin.
Defined.

(** X3: the adapters that [boot] registers under names that were free are
    pairwise distinct instances, none of them constructed before the call:
    two different names never share one constructed adapter. *)
Theorem boot_instances_distinct rt name1 name2 inst1 inst2 :
  adapters (this rt) !! name1 = None ->
  adapters (this rt) !! name2 = None ->
  adapters (this (snd (boot rt))) !! name1 = Some inst1 ->
  adapters (this (snd (boot rt))) !! name2 = Some inst2 ->
  name1 <> name2 ->
  inst_id inst1 <> inst_id inst2
  /\ instances (world rt) <= inst_id inst1 < instances (world (snd (boot rt)))
  /\ instances (world rt) <= inst_id inst2 < instances (world (snd (boot rt))).
Proof.
  rewrite boot_run. cbn [snd this world adapters instances].
  intros Hfree1 Hfree2 Hreg1 Hreg2 Hne.
  destruct (registry_after_new _ _ _ _ _ Hfree1 Hreg1) as (i1 & d1 & Hi1 & Hd1 & ->).
  destruct (registry_after_new _ _ _ _ _ Hfree2 Hreg2) as (i2 & d2 & Hi2 & Hd2 & ->).
  cbn [inst_id].
  pose proof (lookup_lt_Some _ _ _ Hi1). pose proof (lookup_lt_Some _ _ _ Hi2).
  split; [|lia].
  intros Heq. assert (i1 = i2) as -> by lia.
  rewrite Hi1 in Hi2. injection Hi2 as ->. congruence.
Qed.

Lemma boot_instances_distinct_witness :
  exists inst1 inst2,
    adapters (this (snd (boot duplicate_unbooted))) !! "local" = Some inst1
    /\ adapters (this (snd (boot duplicate_unbooted))) !! "backup" = Some inst2
    /\ inst_id inst1 <> inst_id inst2.
Proof.
  exists {| inst_id := 0; inst_adapter := LocalMailDriver render_ok ∅ |},
         {| inst_id := 2; inst_adapter := LocalMailDriver render_failing ∅ |}.
  split; [reflexivity|]. split; [reflexivity|].
  apply (boot_instances_distinct duplicate_unbooted "local" "backup" _ _
           eq_refl eq_refl eq_refl eq_refl).
  discriminate.
Defined.

(** ** [LocalMailDriver.send] *)

(** X4: [LocalMailDriver.send] writes neither store and never calls the
    logger's error path.  It fails only when the body is a template and the
    renderer rejects: it then rejects with the renderer's error after the
    render call alone, without an info record.  When it resolves, the info
    record is the last call it made. *)
Theorem local_driver_fails_only_through_renderer view_render mail w :
  objects (snd (LocalMailDriver_send view_render mail w)) = objects w
  /\ mails (snd (LocalMailDriver_send view_render mail w)) = mails w
  /\ errors_logged (trace (snd (LocalMailDriver_send view_render mail w)))
     = errors_logged (trace w)
  /\ (forall e,
        fst (LocalMailDriver_send view_render mail w) = Rejected e ->
        exists d,
          mail_body (mails w !!! mail) = BodyView d
          /\ view_render (mvd_view d) (render_data d w) (objects w) = Rejected e
          /\ trace (snd (LocalMailDriver_send view_render mail w))
             = trace w ++ [ViewRender (mvd_view d) (render_data d w)])
  /\ (fst (LocalMailDriver_send view_render mail w) = Resolved tt ->
      exists body,
        last (trace (snd (LocalMailDriver_send view_render mail w)))
        = Some (LogInfo "Email"
                  (JSON_stringify (email_record (mails w !!! mail) body)))).
Proof.
  rewrite LocalMailDriver_send_run.
  destruct (mail_body (mails w !!! mail)) as [s|d] eqn:Hb.
  - rewrite (generateBodyString_string _ _ _ _ Hb).
    cbn [fst snd emit objects mails trace].
    split; [reflexivity|]. split; [reflexivity|].
    split; [rewrite errors_logged_app; cbn; apply app_nil_r|].
    split; [discriminate|].
    intros _. exists s. apply last_snoc.
  - rewrite (generateBodyString_view _ _ _ _ Hb).
    destruct (view_render (mvd_view d) (render_data d w) (objects w))
      as [html|e0] eqn:Hr;
      cbn [fst snd emit objects mails trace].
    + split; [reflexivity|]. split; [reflexivity|].
      split; [rewrite !errors_logged_app; cbn; now rewrite !app_nil_r|].
      split; [discriminate|].
      intros _. exists html. apply last_snoc.
    + split; [reflexivity|]. split; [reflexivity|].
      split; [rewrite errors_logged_app; cbn; apply app_nil_r|].
      split; [|discriminate].
      intros e He. injection He as <-. exists d. auto.
Qed.

Lemma local_driver_fails_only_through_renderer_witness :
  exists d,
    mail_body (mails sample_world !!! 1) = BodyView d
    /\ render_failing (mvd_view d) (render_data d sample_world) (objects sample_world)
       = Rejected (Thrown "template missing")
    /\ trace (snd (LocalMailDriver_send render_failing 1 sample_world))
       = trace sample_world ++ [ViewRender (mvd_view d) (render_data d sample_world)].
Proof.
  exact (proj1 (proj2 (proj2 (proj2
           (local_driver_fails_only_through_renderer render_failing 1 sample_world))))
           (Thrown "template missing") eq_refl).
Defined.

(** ** [MailService.send] *)

(** X5: a template-shaped mail sent through a registered local driver
    whose renderer resolves: [send] resolves, and the log gains exactly the
    render call on the merged data followed by one info record whose body
    is the rendered text; no error is logged. *)
Theorem send_template_through_local_driver
    mail driver rt m d inst view_render html :
  mails (world rt) !! mail = Some m ->
  mail_body m = BodyView d ->
  adapters (this rt) !! driver_name driver rt = Some inst ->
  adapter_send (inst_adapter inst) = LocalMailDriver_send view_render ->
  view_render (mvd_view d)
    (properties (world (snd (addLocalesData mail rt)))
       (S (length (objects (world rt)))))
    (objects (world (snd (addLocalesData mail rt)))) = Resolved html ->
  fst (send mail driver rt) = Resolved tt
  /\ trace (world (snd (send mail driver rt)))
     = trace (world rt)
       ++ [ViewRender (mvd_view d)
             (properties (world (snd (addLocalesData mail rt)))
                (S (length (objects (world rt)))));
           LogInfo "Email" (JSON_stringify (email_record m html))]
  /\ errors_logged (trace (world (snd (send mail driver rt))))
     = errors_logged (trace (world rt)).
Proof.
  intros Hm Hb Hreg Hlocal Hrender.
  destruct (merged_world mail rt m d Hm Hb) as (_ & Hmails & Htr & _).
  cbn zeta in Hmails.
  set (w1 := world (snd (addLocalesData mail rt))) in *.
  set (d1 := {| mvd_view := mvd_view d;
                mvd_data := Some (S (length (objects (world rt)))) |}) in *.
  assert (Hmail1 : mails w1 !! mail = Some (with_body (BodyView d1) m)).
  { rewrite Hmails. apply list_lookup_insert_eq. now apply lookup_lt_Some in Hm. }
  assert (Hrun : send mail driver rt
                 = (Resolved tt,
                    {| this := this rt;
                       world := emit (LogInfo "Email"
                                        (JSON_stringify (email_record m html)))
                                  (emit (ViewRender (mvd_view d)
                                           (properties w1
                                              (S (length (objects (world rt))))))
                                     w1) |})).
  { rewrite (send_registered _ _ _ _ Hreg), Hlocal. fold w1.
    rewrite LocalMailDriver_send_run.
    rewrite (generateBodyString_view view_render mail w1 d1)
      by now rewrite (lookup_total_of_lookup _ _ _ Hmail1).
    unfold render_data. cbn [d1 mvd_data mvd_view]. rewrite Hrender.
    rewrite (lookup_total_of_lookup _ _ _ Hmail1). reflexivity. }
  rewrite Hrun. cbn [fst snd world emit trace]. rewrite Htr.
  split; [reflexivity|]. split; [now rewrite <- app_assoc|].
  rewrite !errors_logged_app. cbn. now rewrite !app_nil_r.
Qed.

Lemma send_template_through_local_driver_witness :
  fst (send 1 None (booted render_ok ∅)) = Resolved tt
  /\ trace (world (snd (send 1 None (booted render_ok ∅))))
     = [ViewRender "x" {["a" := VNum 1; "locales" := VRef 3]};
        LogInfo "Email"
          (JSON_stringify
             (email_record
                (sample_mail (BodyView {| mvd_view := "x"; mvd_data := Some 1 |}))
                "<x>"))].
Proof.
  destruct (send_template_through_local_driver 1 None (booted render_ok ∅)
              (sample_mail (BodyView {| mvd_view := "x"; mvd_data := Some 1 |}))
              {| mvd_view := "x"; mvd_data := Some 1 |}
              {| inst_id := 0; inst_adapter := LocalMailDriver render_ok ∅ |}
              render_ok "<x>" eq_refl eq_refl eq_refl eq_refl eq_refl)
    as (Hres & Htrace & _).
  split; [exact Hres|]. rewrite Htrace. reflexivity.
Defined.

(** X6: [send] resolves exactly when the driver name is registered and
    that adapter's [send] resolves on the merged mail; the service then
    adds nothing of its own to what the adapter did (no log record). *)
Theorem send_resolves_iff_adapter_resolves mail driver rt :
  (fst (send mail driver rt) = Resolved tt <->
   exists inst,
     adapters (this rt) !! driver_name driver rt = Some inst
     /\ fst (adapter_send (inst_adapter inst) mail
               (world (snd (addLocalesData mail rt)))) = Resolved tt)
  /\ (forall inst w2,
        adapters (this rt) !! driver_name driver rt = Some inst ->
        adapter_send (inst_adapter inst) mail
          (world (snd (addLocalesData mail rt))) = (Resolved tt, w2) ->
        send mail driver rt = (Resolved tt, {| this := this rt; world := w2 |})).
Proof.
  split.
  - rewrite send_run. cbn zeta.
    destruct (adapters (this rt) !! driver_name driver rt) as [a|] eqn:Hreg.
    + destruct (adapter_send (inst_adapter a) mail _) as [[[]|e] w2] eqn:Hrun;
        cbn [settle fst].
      * split; [intros _; exists a; now rewrite Hrun|reflexivity].
      * split; [discriminate|].
        intros (inst & Hinst & Hres). injection Hinst as <-.
        rewrite Hrun in Hres. discriminate Hres.
    + cbn [settle fst]. split; [discriminate|].
      intros (inst & Hinst & _). discriminate Hinst.
  - intros inst w2 Hreg Hrun.
    now rewrite (send_registered _ _ _ _ Hreg), Hrun.
Qed.

Lemma send_resolves_iff_adapter_resolves_witness :
  fst (send 0 None (booted render_ok ∅)) = Resolved tt
  /\ send 0 None (booted render_ok ∅)
     = (Resolved tt,
        {| this := this (booted render_ok ∅);
           world := snd (LocalMailDriver_send render_ok 0
                           (world (booted render_ok ∅))) |}).
Proof.
  destruct (send_resolves_iff_adapter_resolves 0 None (booted render_ok ∅))
    as [Hiff Hworld].
  split.
  - apply Hiff.
    exists {| inst_id := 0; inst_adapter := LocalMailDriver render_ok ∅ |}.
    split; reflexivity.
  - exact (Hworld {| inst_id := 0; inst_adapter := LocalMailDriver render_ok ∅ |}
             _ eq_refl eq_refl).
Defined.

(** X7: with the driver argument omitted, [send] goes to the adapter that
    [getDefaultDriver] returns, and when [getDefaultDriver] fails [send]
    rejects with the same error. *)
Theorem send_uses_default_driver mail rt :
  (forall inst,
     fst (getDefaultDriver rt) = Resolved inst ->
     send mail None rt
       = settle (this rt)
           (adapter_send (inst_adapter inst) mail
              (world (snd (addLocalesData mail rt)))))
  /\ (forall e,
        fst (getDefaultDriver rt) = Rejected e ->
        fst (send mail None rt) = Rejected e)
  /\ send mail None rt
     = send mail (Some (cfg_default (mailConfig (this rt)))) rt.
Proof.
  assert (Hget : getDefaultDriver rt
                 = match adapters (this rt) !! cfg_default (mailConfig (this rt)) with
                   | Some a => (Resolved a, rt)
                   | None =>
                       (Rejected (AdapterNotFound (cfg_default (mailConfig (this rt)))),
                        rt)
                   end).
  { unfold getDefaultDriver, bind, gets, getAdapter. reflexivity. }
  rewrite Hget. split; [|split].
  - intros inst Hres.
    destruct (adapters (this rt) !! cfg_default (mailConfig (this rt)))
      as [a|] eqn:Hreg; [|discriminate Hres].
    injection Hres as <-. now apply send_registered.
  - intros e Hrej.
    destruct (adapters (this rt) !! cfg_default (mailConfig (this rt)))
      as [a|] eqn:Hreg; [discriminate Hrej|].
    injection Hrej as <-. rewrite send_run. cbn zeta.
    unfold driver_name. cbn [default]. now rewrite Hreg.
  - rewrite !send_default. reflexivity.
Qed.

Lemma send_uses_default_driver_witness :
  send 0 None (booted render_ok ∅)
    = settle (this (booted render_ok ∅))
        (LocalMailDriver_send render_ok 0 (world (booted render_ok ∅)))
  /\ fst (send 0 None (unbooted render_ok ∅)) = Rejected (AdapterNotFound "local").
Proof.
  split.
  - exact (proj1 (send_uses_default_driver 0 (booted render_ok ∅))
             {| inst_id := 0; inst_adapter := LocalMailDriver render_ok ∅ |}
             eq_refl).
  - exact (proj1 (proj2 (send_uses_default_driver 0 (unbooted render_ok ∅)))
             (AdapterNotFound "local") eq_refl).
Defined.

Lemma registry_readonly_after_send mail driver rt :
  registry_readonly rt -> registry_readonly (snd (send mail driver rt)).
Proof. intros Hro name inst. rewrite send_this. apply Hro. Qed.

(** X8: sending the same template-shaped mail a second time does not nest
    or accumulate locale data.  With adapters that leave the stores alone
    and a locale context and template data that exist in the store, after
    the second [send] the mail's data object has the entries of the
    original data on every key other than [locales], and its [locales]
    entry refers to a newer object holding the locale context with the date
    of the second call; each call allocated two objects, and neither the
    locale context nor the original data object was written. *)
Theorem resend_template_mail mail driver1 driver2 rt m d :
  mails (world rt) !! mail = Some m ->
  mail_body m = BodyView d ->
  (forall ld, mvd_data d = Some ld -> ld < length (objects (world rt))) ->
  localesConfig (this rt) < length (objects (world rt)) ->
  registry_readonly rt ->
  exists ld2 ll2 D2,
    mails (world (snd (send mail driver2 (snd (send mail driver1 rt))))) !! mail
      = Some (with_body (BodyView {| mvd_view := mvd_view d;
                                     mvd_data := Some ld2 |}) m)
    /\ objects (world (snd (send mail driver2 (snd (send mail driver1 rt))))) !! ld2
       = Some D2
    /\ (forall k, k <> "locales" -> D2 !! k = render_data d (world rt) !! k)
    /\ D2 !! "locales" = Some (VRef ll2)
    /\ objects (world (snd (send mail driver2 (snd (send mail driver1 rt))))) !! ll2
       = Some (<["date" := VDate (clock (world (snd (send mail driver1 rt))))]>
                 (properties (world rt) (localesConfig (this rt))))
    /\ length (objects (world (snd (send mail driver2 (snd (send mail driver1 rt))))))
       = length (objects (world rt)) + 4
    /\ (forall l o,
          objects (world rt) !! l = Some o ->
          objects (world (snd (send mail driver2 (snd (send mail driver1 rt))))) !! l
            = Some o).
Proof.
  intros Hm Hb Hdata Hlc Hro.
  set (rt1 := snd (send mail driver1 rt)).
  set (rt2 := snd (send mail driver2 rt1)).
  set (n := length (objects (world rt))).
  set (E := render_data d (world rt)).
  set (L1 := locales_of (localesConfig (this rt)) (world rt)).
  (* the first call *)
  destruct (merged_world mail rt m d Hm Hb) as (Hobjs1 & Hmails1 & _).
  cbn zeta in Hobjs1, Hmails1.
  destruct (send_stores_readonly mail driver1 rt Hro) as [Ho1 Hm1].
  rewrite <- Ho1 in Hobjs1. rewrite <- Hm1 in Hmails1. fold rt1 in Hobjs1, Hmails1.
  assert (HE : match mvd_data d with
               | Some l => (objects (world rt) ++ [L1]) !!! l
               | None => ∅
               end = E).
  { unfold E, render_data, properties. destruct (mvd_data d) as [ld|] eqn:Hd;
      [|reflexivity].
    destruct (lookup_lt_is_Some_2 (objects (world rt)) ld (Hdata ld eq_refl))
      as [o Ho].
    rewrite (lookup_total_of_lookup _ _ _ Ho).
    apply lookup_total_of_lookup. now apply lookup_app_l_Some. }
  fold L1 in Hobjs1. rewrite HE in Hobjs1. fold n in Hobjs1, Hmails1.
  set (m1 := with_body (BodyView {| mvd_view := mvd_view d;
                                    mvd_data := Some (S n) |}) m) in *.
  assert (Hmail1 : mails (world rt1) !! mail = Some m1).
  { rewrite Hmails1. apply list_lookup_insert_eq. now apply lookup_lt_Some in Hm. }
  assert (Hlen1 : length (objects (world rt1)) = n + 2).
  { rewrite Hobjs1, length_app. cbn. reflexivity. }
  assert (Hthis1 : this rt1 = this rt) by apply send_this.
  (* the second call *)
  destruct (merged_world mail rt1 m1 {| mvd_view := mvd_view d;
                                        mvd_data := Some (S n) |} Hmail1 eq_refl)
    as (Hobjs2 & Hmails2 & _).
  cbn zeta in Hobjs2, Hmails2. cbn [mvd_data mvd_view] in Hobjs2, Hmails2.
  destruct (send_stores_readonly mail driver2 rt1
              (registry_readonly_after_send mail driver1 rt Hro)) as [Ho2 Hm2].
  rewrite <- Ho2 in Hobjs2. rewrite <- Hm2 in Hmails2. fold rt2 in Hobjs2, Hmails2.
  assert (Hdata1 : objects (world rt1) !! S n = Some (<["locales" := VRef n]> E)).
  { rewrite Hobjs1. apply lookup_allocated_second. }
  rewrite (lookup_total_of_lookup _ (S n) (<["locales" := VRef n]> E)) in Hobjs2
    by (now apply lookup_app_l_Some).
  assert (Hctx : properties (world rt1) (localesConfig (this rt1))
                 = properties (world rt) (localesConfig (this rt))).
  { rewrite Hthis1. unfold properties.
    destruct (lookup_lt_is_Some_2 (objects (world rt)) _ Hlc) as [o Ho].
    rewrite (lookup_total_of_lookup _ _ _ Ho).
    apply lookup_total_of_lookup. rewrite Hobjs1. now apply lookup_app_l_Some. }
  unfold locales_of in Hobjs2. rewrite Hctx in Hobjs2. rewrite Hlen1 in Hobjs2, Hmails2.
  exists (S (n + 2)), (n + 2),
    (<["locales" := VRef (n + 2)]> (<["locales" := VRef n]> E)).
  split.
  { rewrite Hmails2. rewrite list_lookup_insert_eq; [reflexivity|].
    now apply lookup_lt_Some in Hmail1. }
  split.
  { rewrite Hobjs2. rewrite <- Hlen1. apply lookup_allocated_second. }
  split; [intros k Hk; now rewrite !lookup_insert_ne|].
  split; [apply lookup_insert_eq|].
  split.
  { rewrite Hobjs2. rewrite <- Hlen1. apply lookup_allocated_first. }
  split.
  { rewrite Hobjs2, length_app, Hlen1. cbn. lia. }
  intros l o Hl. rewrite Hobjs2, Hobjs1.
  apply lookup_app_l_Some. now apply lookup_app_l_Some.
Qed.

Lemma resend_template_mail_witness :
  exists ld2 ll2 D2,
    objects (world (snd (send 3 None (snd (send 3 None (booted render_ok ∅)))))) !! ld2
      = Some D2
    /\ D2 !! "locales" = Some (VRef ll2)
    /\ length (objects (world (snd (send 3 None
                                      (snd (send 3 None (booted render_ok ∅)))))))
       = 7.
Proof.
  destruct (resend_template_mail 3 None None (booted render_ok ∅)
              (sample_mail (BodyView {| mvd_view := "x"; mvd_data := Some 2 |}))
              {| mvd_view := "x"; mvd_data := Some 2 |} eq_refl eq_refl)
    as (ld2 & ll2 & D2 & _ & Hdata & _ & Hloc & _ & Hlen & _).
  - intros ld Hld. injection Hld as <-. vm_compute. lia.
  - vm_compute. lia.
  - apply sample_registry_readonly.
  - exists ld2, ll2, D2. split; [exact Hdata|]. split; [exact Hloc|]. exact Hlen.
Defined.

Lemma addLocalesData_other_mails mail other rt :
  other <> mail ->
  mails (world (snd (addLocalesData mail rt))) !! other
    = mails (world rt) !! other.
Proof.
  intros Hne.
  destruct (mail_body (mails (world rt) !!! mail)) as [s|d] eqn:Hb.
  - now rewrite (addLocalesData_string _ _ _ Hb).
  - rewrite (addLocalesData_view _ _ _ Hb). cbn [snd world mails].
    apply list_lookup_alter_ne. congruence.
Qed.

(** X9: [send] writes no mail other than the one it is given, even one
    that shares its template data object: with adapters that leave the
    stores alone, another template-shaped mail is afterwards as it was, its
    data object is unchanged, and [generateBodyString] on it still renders
    with that data, without locale data. *)
Theorem send_leaves_other_mails mail other driver rt mo :
  other <> mail ->
  mails (world rt) !! other = Some mo ->
  registry_readonly rt ->
  mails (world (snd (send mail driver rt))) !! other = Some mo
  /\ (forall d ld D,
        mail_body mo = BodyView d ->
        mvd_data d = Some ld ->
        objects (world rt) !! ld = Some D ->
        objects (world (snd (send mail driver rt))) !! ld = Some D
        /\ forall view_render,
             generateBodyString view_render other (world (snd (send mail driver rt)))
             = (view_render (mvd_view d) D
                  (objects (world (snd (send mail driver rt)))),
                emit (ViewRender (mvd_view d) D)
                  (world (snd (send mail driver rt))))).
Proof.
  intros Hne Hmo Hro.
  destruct (send_stores_readonly mail driver rt Hro) as [Hobjs Hmails].
  assert (Hother : mails (world (snd (send mail driver rt))) !! other = Some mo).
  { rewrite Hmails, addLocalesData_other_mails by exact Hne. exact Hmo. }
  split; [exact Hother|].
  intros d ld D Hb Hd HD.
  assert (Hkept : objects (world (snd (send mail driver rt))) !! ld = Some D).
  { rewrite Hobjs. destruct (addLocalesData_objects_extend mail rt) as [new ->].
    now apply lookup_app_l_Some. }
  split; [exact Hkept|].
  intros view_render.
  rewrite (generateBodyString_view view_render other _ d)
    by now rewrite (lookup_total_of_lookup _ _ _ Hother).
  unfold render_data, properties. rewrite Hd.
  now rewrite (lookup_total_of_lookup _ _ _ Hkept).
Qed.

Lemma send_leaves_other_mails_witness :
  mails (world (snd (send 3 None (booted render_ok ∅)))) !! 1
    = Some (sample_mail (BodyView {| mvd_view := "x"; mvd_data := Some 1 |}))
  /\ objects (world (snd (send 3 None (booted render_ok ∅)))) !! 1
     = Some {["a" := VNum 1]}.
Proof.
  destruct (send_leaves_other_mails 3 1 None (booted render_ok ∅)
              (sample_mail (BodyView {| mvd_view := "x"; mvd_data := Some 1 |})))
    as [Hmail Hdata].
  - discriminate.
  - reflexivity.
  - apply sample_registry_readonly.
  - split; [exact Hmail|].
    exact (proj1 (Hdata {| mvd_view := "x"; mvd_data := Some 1 |} 1
                    {["a" := VNum 1]} eq_refl eq_refl eq_refl)).
Defined.
